(** * Path constraints of the Triton symbolic engine and their Python object

    The development embeds [src/libtriton/bindings/python/objects/pyPathConstraint.cpp]
    (the [PathConstraint] Python object) together with the part of the
    symbolic engine it forwards to, and proves the properties the design
    document states about the path-constraint trail and its query surface. *)

From Stdlib Require Import ZArith String Ascii List Lia.
From stdpp Require Import base option list gmap strings.

Set Warnings "-register-all".

(** ** Symbolic predicates *)

(** Modelled from the spec: the AST nodes ([triton/ast.hpp] is not among the
    sources).  A predicate is an immutable symbolic expression; the only
    constructors the trail's consumers apply are [Not] and [Conjunction]
    (section 4.3), everything else is an opaque node made by the
    instruction-semantics layer. *)
Inductive AbstractNode : Type :=
  | Opaque (id : N)
  | Not (p : AbstractNode)
  | Conjunction (ps : list AbstractNode).

(** ** Native exceptions and fallible native code *)

(** Modelled from the spec: the error taxonomy of section 7
    ([triton/exceptions.hpp] is not among the sources).  Every native error
    is a [triton::exceptions::Exception] carrying a message. *)
Inductive Exception : Type :=
  | InvalidConstraintError
  | InvalidHandleError.

(** Modelled from the spec: [Exception::what]; the message texts are not in
    the sources, the error's name stands for its message. *)
Definition what (e : Exception) : string :=
  match e with
  | InvalidConstraintError => "InvalidConstraintError"%string
  | InvalidHandleError => "InvalidHandleError"%string
  end.

Inductive result (A : Type) : Type :=
  | Ok (a : A)
  | Throw (e : Exception).
Arguments Ok {A} a.
Arguments Throw {A} e.

(** ** Data model (spec section 3) *)

(** One candidate outgoing edge.  In the binding the record is the tuple read
    with [std::get<0>] .. [std::get<3>]. *)
Record BranchRecord : Type := mkBranch {
  isTaken : bool;
  sourceAddress : Z;
  destinationAddress : Z;
  predicate : AbstractNode
}.

(** [triton::engines::symbolic::PathConstraint], the spec's
    PathConstraintEntry. *)
Record PathConstraint : Type := mkPathConstraint {
  branches : list BranchRecord;
  threadId : Z;
  comment : string
}.

Definition PathConstraintTrail : Type := list PathConstraint.

(** Number of records flagged as taken. *)
Fixpoint countTaken (bs : list BranchRecord) : nat :=
  match bs with
  | [] => 0
  | b :: rest => (if isTaken b then 1 else 0) + countTaken rest
  end.

(** The entry invariant: exactly one record is taken. *)
Definition entry_ok (e : PathConstraint) : Prop := countTaken (branches e) = 1.

(** ** Native operations of the entry *)

(** Modelled from the spec: the methods of [PathConstraint]
    ([pathConstraint.cpp] is not among the sources), section 4.2. *)

(** The record with [isTaken == true], scanning in insertion order. *)
Fixpoint takenBranch (bs : list BranchRecord) : option BranchRecord :=
  match bs with
  | [] => None
  | b :: rest => if isTaken b then Some b else takenBranch rest
  end.

(** Modelled from the spec: the getters that are "derived directly from the
    taken BranchRecord".  The spec defines them under the entry invariant
    only; on an entry without a taken record the model raises the error the
    spec attaches to malformed entries. *)
Definition fromTaken {A : Type} (f : BranchRecord -> A) (e : PathConstraint) : result A :=
  match takenBranch (branches e) with
  | Some b => Ok (f b)
  | None => Throw InvalidConstraintError
  end.

Definition getSourceAddress : PathConstraint -> result Z := fromTaken sourceAddress.
Definition getTakenAddress : PathConstraint -> result Z := fromTaken destinationAddress.
Definition getTakenPredicate : PathConstraint -> result AbstractNode := fromTaken predicate.

(** Modelled from the spec: "a read-only projection of branches". *)
Definition getBranchConstraints (e : PathConstraint) : list BranchRecord := branches e.

(** Modelled from the spec: [branches.size() > 1]. *)
Definition isMultipleBranches (e : PathConstraint) : bool :=
  Nat.ltb 1 (length (branches e)).

(** Modelled from the spec: metadata accessors. *)
Definition getThreadId (e : PathConstraint) : Z := threadId e.
Definition getComment (e : PathConstraint) : string := comment e.
Definition setComment (text : string) (e : PathConstraint) : PathConstraint :=
  {| branches := branches e; threadId := threadId e; comment := text |}.

(** ** The trail (spec section 4.1) *)

(** Modelled from the spec: [appendEntry(branches, threadId, comment)] on the
    trail (the engine's append is not among the sources).  It fails with
    [InvalidConstraintError] if [branches] is empty or if zero or more than
    one record is taken; otherwise the new entry goes to the tail. *)
Definition appendEntry (bs : list BranchRecord) (tid : Z) (text : string)
    (trail : PathConstraintTrail) : result unit * PathConstraintTrail :=
  match bs with
  | [] => (Throw InvalidConstraintError, trail)
  | _ :: _ =>
      if Nat.eqb (countTaken bs) 1
      then (Ok tt, trail ++ [mkPathConstraint bs tid text])
      else (Throw InvalidConstraintError, trail)
  end.

(** A session: the trail starts empty and receives a sequence of append
    calls, failed ones included. *)
Definition AppendCall : Type := list BranchRecord * Z * string.

Definition session (calls : list AppendCall) : PathConstraintTrail :=
  fold_left (fun trail '(bs, tid, text) => snd (appendEntry bs tid text trail)) calls [].

(** ** Path-predicate construction (spec section 4.3) *)

Definition result_bind {A B : Type} (f : A -> result B) (r : result A) : result B :=
  match r with
  | Ok a => f a
  | Throw e => Throw e
  end.

#[global] Instance result_ret : MRet result := fun A a => Ok a.
#[global] Instance result_mbind : MBind result := fun A B f r => result_bind f r.

(** Modelled from the spec: the taken predicates of a run of entries, in
    trail order (the solver feed is not among the sources). *)
Fixpoint takenPredicates (entries : list PathConstraint) : result (list AbstractNode) :=
  match entries with
  | [] => Ok []
  | e :: rest =>
      p ← getTakenPredicate e;
      ps ← takenPredicates rest;
      Ok (p :: ps)
  end.

(** Modelled from the spec: the path predicate of the prefix made of the
    first [n] entries: the conjunction, in trail order, of their taken
    predicates.  The full-path predicate is [pathPredicate trail (length trail)]. *)
Definition pathPredicate (trail : PathConstraintTrail) (n : nat) : result AbstractNode :=
  ps ← takenPredicates (take n trail);
  Ok (Conjunction ps).

(** Which decision replaces the taken one of the last entry of the prefix:
    its negation, or the predicate of the non-taken record number [j]. *)
Inductive Alternate : Type :=
  | Negated
  | NonTaken (j : nat).

(** Modelled from the spec: the predicate standing in for entry [e]'s taken
    predicate.  The choice among non-taken records belongs to the
    exploration strategy; an index that names no record, or the taken one,
    is a misuse and is reported with the taxonomy's errors. *)
Definition alternateOf (e : PathConstraint) (alt : Alternate) : result AbstractNode :=
  match alt with
  | Negated => p ← getTakenPredicate e; Ok (Not p)
  | NonTaken j =>
      match branches e !! j with
      | Some b => if isTaken b then Throw InvalidConstraintError else Ok (predicate b)
      | None => Throw InvalidHandleError
      end
  end.

(** Modelled from the spec: the alternate-path predicate for entry [k]: the
    decisions of the entries before [k] are held fixed, the one of entry [k]
    is flipped. *)
Definition alternatePredicate (trail : PathConstraintTrail) (k : nat) (alt : Alternate)
    : result AbstractNode :=
  match trail !! k with
  | None => Throw InvalidHandleError
  | Some e =>
      ps ← takenPredicates (take k trail);
      a ← alternateOf e alt;
      Ok (Conjunction (ps ++ [a]))
  end.

(** ** The native heap *)

(** Native [PathConstraint] objects live at locations; a pointer such as
    [object->pc] is a location. *)
Definition loc : Type := positive.

Abbreviation Heap := (gmap positive PathConstraint).

(** What a piece of native code comes to: a value, a
    [triton::exceptions::Exception] on its way up, or no outcome at all
    ([Abort]): an exception of another kind, which no handler of the binding
    catches, or a use of memory that C++ leaves undefined.  Nothing is known
    of the program after [Abort]; the heap paired with it is the one at
    that point. *)
Inductive outcome (A : Type) : Type :=
  | Value (a : A)
  | Raise (e : Exception)
  | Abort.
Arguments Value {A} a.
Arguments Raise {A} e.
Arguments Abort {A}.

(** Native code: it reads and writes the heap and may throw or abort. *)
Definition Native (A : Type) : Type := Heap -> outcome A * Heap.

Definition nret {A : Type} (a : A) : Native A := fun σ => (Value a, σ).

Definition nbind {A B : Type} (m : Native A) (k : A -> Native B) : Native B :=
  fun σ =>
    match m σ with
    | (Value a, σ') => k a σ'
    | (Raise e, σ') => (Raise e, σ')
    | (Abort, σ') => (Abort, σ')
    end.

(** A native method that returns or throws. *)
Definition nlift {A : Type} (r : result A) : Native A :=
  fun σ =>
    match r with
    | Ok a => (Value a, σ)
    | Throw e => (Raise e, σ)
    end.

Definition nabort {A : Type} : Native A := fun σ => (Abort, σ).

Notation "'do' x <- m ; k" := (nbind m (fun x => k))
  (at level 10, x name, m at level 100, k at level 200).

(** [PyPathConstraint_AsPathConstraint(self)->method()]: the method runs on
    the object the pointer designates.  The binding does not test the
    pointer: where it designates no live object the call is undefined. *)
Definition call_const {A : Type} (l : loc) (method : PathConstraint -> A) : Native A :=
  fun σ =>
    match σ !! l with
    | Some this => (Value (method this), σ)
    | None => (Abort, σ)
    end.

Definition call_mut (l : loc) (method : PathConstraint -> PathConstraint) : Native unit :=
  fun σ =>
    match σ !! l with
    | Some this => (Value tt, <[l := method this]> σ)
    | None => (Abort, σ)
    end.

(** ** The host side: Python values *)

(** The Python objects the binding meets.  [PyNULL] is the empty slot of a
    list fresh from [PyList_New].  [PyStr s] is the [str] whose UTF-8 form
    is [s] (it is a [str] of Python when [s] is well-formed UTF-8, see
    [is_utf8]); [PyStr_surrogates] is a [str] that has no UTF-8 form, given
    by its code points, one of them a lone surrogate. *)
Inductive PyObject : Type :=
  | PyNULL
  | Py_None
  | PyBool (b : bool)
  | PyLong (v : Z)
  | PyStr (s : string)
  | PyStr_surrogates (code_points : list N)
  | PyList (items : list PyObject)
  | PyDict (items : list (string * PyObject))
  | AstNode_Object (node : AbstractNode).

Definition Py_True : PyObject := PyBool true.
Definition Py_False : PyObject := PyBool false.

Inductive PyExc : Type :=
  | PyExc_TypeError
  | PyExc_UnicodeDecodeError.

(** What a method hands back to the interpreter: an object, or [NULL] with
    the error indicator set; [PyAbort] when the call never comes back (see
    [Abort]). *)
Inductive PyResult : Type :=
  | PyReturn (o : PyObject)
  | PyRaised (exc : PyExc) (msg : string)
  | PyAbort.

Definition PyErr_Format (exc : PyExc) (msg : string) : PyResult := PyRaised exc msg.

(** [PathConstraint_Object]: the Python wrapper; [pc] points to its native
    object. *)
Record PathConstraint_Object : Type := mkObject { pc : loc }.

Definition PyPathConstraint_AsPathConstraint (self : PathConstraint_Object) : loc := pc self.

(** *** C strings *)

(** The bytes of a C string up to its terminating NUL: what the
    constructor of [std::string] from a character pointer and the format
    [s] of [Py_BuildValue] read. *)
Fixpoint cstring (buf : string) : string :=
  match buf with
  | EmptyString => EmptyString
  | String c rest => if Ascii.eqb c Ascii.zero then EmptyString else String c (cstring rest)
  end.

(** [std::string::c_str]: the bytes of the string, a NUL after them. *)
Definition c_str (s : string) : string := s.

(** *** UTF-8 *)

(** The states of the decoder between two bytes: at a character boundary,
    or inside a character with one, two or three continuation bytes to
    come, the first of them restricted after the lead bytes E0, ED, F0 and
    F4 (no overlong form, no surrogate, nothing above U+10FFFF). *)
Inductive utf8_state : Type :=
  | U_start
  | U_tail1
  | U_tail2
  | U_tail3
  | U_after_E0
  | U_after_ED
  | U_after_F0
  | U_after_F4.

Definition byte_in (lo hi : N) (c : ascii) : bool :=
  (lo <=? N_of_ascii c)%N && (N_of_ascii c <=? hi)%N.

Definition utf8_step (st : utf8_state) (c : ascii) : option utf8_state :=
  match st with
  | U_start =>
      if byte_in 0 127 c then Some U_start
      else if byte_in 194 223 c then Some U_tail1
      else if byte_in 224 224 c then Some U_after_E0
      else if byte_in 237 237 c then Some U_after_ED
      else if byte_in 225 239 c then Some U_tail2
      else if byte_in 240 240 c then Some U_after_F0
      else if byte_in 241 243 c then Some U_tail3
      else if byte_in 244 244 c then Some U_after_F4
      else None
  | U_tail1 => if byte_in 128 191 c then Some U_start else None
  | U_tail2 => if byte_in 128 191 c then Some U_tail1 else None
  | U_tail3 => if byte_in 128 191 c then Some U_tail2 else None
  | U_after_E0 => if byte_in 160 191 c then Some U_tail1 else None
  | U_after_ED => if byte_in 128 159 c then Some U_tail1 else None
  | U_after_F0 => if byte_in 144 191 c then Some U_tail2 else None
  | U_after_F4 => if byte_in 128 143 c then Some U_tail2 else None
  end.

Fixpoint utf8_run (st : utf8_state) (s : string) : option utf8_state :=
  match s with
  | EmptyString => Some st
  | String c rest =>
      match utf8_step st c with
      | Some st' => utf8_run st' rest
      | None => None
      end
  end.

(** Whether the bytes are well-formed UTF-8: what the strict decoder of
    CPython accepts. *)
Definition is_utf8 (s : string) : bool :=
  match utf8_run U_start s with
  | Some U_start => true
  | _ => false
  end.

(** *** Strings across the boundary *)

(** Modelled from the spec: the helpers of [triton/pythonUtils.hpp] and
    [triton/pythonXFunctions.hpp] (not among the sources), by the CPython
    functions they are named after.  [PyStr_Check] tells whether an object
    is a [str].  [PyStr_AsString] yields the UTF-8 buffer of a [str], and
    [NULL] ([None]) for a [str] that has no UTF-8 form or an object that is
    no [str]. *)
Definition PyStr_Check (o : PyObject) : bool :=
  match o with
  | PyStr _ => true
  | PyStr_surrogates _ => true
  | _ => false
  end.

Definition PyStr_AsString (o : PyObject) : option string :=
  match o with
  | PyStr s => Some s
  | _ => None
  end.

(** [Py_BuildValue] with format [s]: the [str] decoded from a
    NUL-terminated C string; [UnicodeDecodeError] when the bytes are not
    UTF-8.  The text of the error (it quotes the offending byte and its
    position) is not modelled. *)
Definition Py_BuildValue_s (p : string) : PyResult :=
  if is_utf8 (cstring p)
  then PyReturn (PyStr (cstring p))
  else PyErr_Format PyExc_UnicodeDecodeError "'utf-8' codec can't decode byte".

(** *** Integers *)

Definition uint32 (v : Z) : Z := (v mod 2 ^ 32)%Z.
Definition uint64 (v : Z) : Z := (v mod 2 ^ 64)%Z.

(** Modelled from the spec: [PyLong_FromUint32] and [PyLong_FromUint64] of
    [triton/pythonUtils.hpp] (not among the sources).  The parameter is a
    [triton::uint32] (resp. [triton::uint64]): the argument is converted to
    that unsigned type and the Python integer of that value is built. *)
Definition PyLong_FromUint32 (v : Z) : PyObject := PyLong (uint32 v).
Definition PyLong_FromUint64 (v : Z) : PyObject := PyLong (uint64 v).

(** [PyBool_FromLong]: [Py_True] for a non-zero argument. *)
Definition PyBool_FromLong (v : Z) : PyObject :=
  if (v =? 0)%Z then Py_False else Py_True.

(** [PyAstNode]: the Python object of an AST node. *)
Definition PyAstNode (node : AbstractNode) : PyObject := AstNode_Object node.

(** *** Lists and dictionaries *)

Definition xPyList_New (n : nat) : PyObject := PyList (replicate n PyNULL).

Definition PyList_SetItem (l : PyObject) (index : nat) (item : PyObject) : PyObject :=
  match l with
  | PyList items => PyList (<[index := item]> items)
  | other => other
  end.

Definition xPyDict_New : PyObject := PyDict [].

(** Insertion into an insertion-ordered dictionary: an existing key keeps
    its place and gets the new value. *)
Fixpoint dict_set (items : list (string * PyObject)) (key : string) (value : PyObject)
    : list (string * PyObject) :=
  match items with
  | [] => [(key, value)]
  | (k, v) :: rest =>
      if String.eqb k key then (k, value) :: rest else (k, v) :: dict_set rest key value
  end.

(** [xPyDict_SetItem(dict, PyStr_FromString(key), value)]. *)
Definition xPyDict_SetItem (dict : PyObject) (key : string) (value : PyObject) : PyObject :=
  match dict with
  | PyDict items => PyDict (dict_set items (cstring key) value)
  | other => other
  end.

(** ** The binding: pyPathConstraint.cpp *)

(** A method of the Python object: it receives [self] and its argument and
    runs on the native heap. *)
Definition PyCFunction : Type :=
  PathConstraint_Object -> PyObject -> Heap -> PyResult * Heap.

(** [try { body } catch (const triton::exceptions::Exception& e)
    { return PyErr_Format(PyExc_TypeError, "%s", e.what()); }]: an exception
    of another kind goes through. *)
Definition try_catch (body : Native PyResult) : Heap -> PyResult * Heap :=
  fun σ =>
    match body σ with
    | (Value r, σ') => (r, σ')
    | (Raise e, σ') => (PyErr_Format PyExc_TypeError (cstring (what e)), σ')
    | (Abort, σ') => (PyAbort, σ')
    end.

(** [PathConstraint_dealloc]: [delete] of the native object. *)
Definition PathConstraint_dealloc (self : PathConstraint_Object) (σ : Heap) : Heap :=
  delete (PyPathConstraint_AsPathConstraint self) σ.

(** The dictionary built in one round of the loop of
    [PathConstraint_getBranchConstraints]. *)
Definition branch_dict (b : BranchRecord) : PyObject :=
  let dict := xPyDict_New in
  let dict := xPyDict_SetItem dict "isTaken" (PyBool_FromLong (Z.b2z (isTaken b))) in
  let dict := xPyDict_SetItem dict "srcAddr" (PyLong_FromUint64 (sourceAddress b)) in
  let dict := xPyDict_SetItem dict "dstAddr" (PyLong_FromUint64 (destinationAddress b)) in
  let dict := xPyDict_SetItem dict "constraint" (PyAstNode (predicate b)) in
  dict.

(** [for (index = 0; index != branches.size(); index++)]: [rounds] is the
    number of rounds still to run, [branches.size() - index]. *)
Fixpoint branch_loop (bs : list BranchRecord) (rounds index : nat) (ret : PyObject) : PyObject :=
  match rounds with
  | O => ret
  | S rounds' =>
      match bs !! index with
      | Some b => branch_loop bs rounds' (S index) (PyList_SetItem ret index (branch_dict b))
      | None => ret
      end
  end.

Definition PathConstraint_getBranchConstraints : PyCFunction :=
  fun self noarg =>
    try_catch (
      do bs <- call_const (PyPathConstraint_AsPathConstraint self) getBranchConstraints;
      let ret := xPyList_New (length bs) in
      nret (PyReturn (branch_loop bs (length bs) 0 ret))).

Definition PathConstraint_getComment : PyCFunction :=
  fun self noarg =>
    try_catch (
      do text <- call_const (PyPathConstraint_AsPathConstraint self) getComment;
      nret (Py_BuildValue_s (c_str text))).

Definition PathConstraint_getSourceAddress : PyCFunction :=
  fun self noarg =>
    try_catch (
      do r <- call_const (PyPathConstraint_AsPathConstraint self) getSourceAddress;
      do addr <- nlift r;
      nret (PyReturn (PyLong_FromUint64 addr))).

Definition PathConstraint_getTakenAddress : PyCFunction :=
  fun self noarg =>
    try_catch (
      do r <- call_const (PyPathConstraint_AsPathConstraint self) getTakenAddress;
      do addr <- nlift r;
      nret (PyReturn (PyLong_FromUint64 addr))).

Definition PathConstraint_getTakenPredicate : PyCFunction :=
  fun self noarg =>
    try_catch (
      do r <- call_const (PyPathConstraint_AsPathConstraint self) getTakenPredicate;
      do node <- nlift r;
      nret (PyReturn (PyAstNode node))).

Definition PathConstraint_getThreadId : PyCFunction :=
  fun self noarg =>
    try_catch (
      do tid <- call_const (PyPathConstraint_AsPathConstraint self) getThreadId;
      nret (PyReturn (PyLong_FromUint32 tid))).

Definition PathConstraint_isMultipleBranches : PyCFunction :=
  fun self noarg =>
    try_catch (
      do multiple <- call_const (PyPathConstraint_AsPathConstraint self) isMultipleBranches;
      if multiple : bool then nret (PyReturn Py_True) else nret (PyReturn Py_False)).

Definition PathConstraint_setComment : PyCFunction :=
  fun self comment =>
    try_catch (
      if negb (PyStr_Check comment)
      then nret (PyErr_Format PyExc_TypeError
                   "PathConstraint::setComment(): Expected a string as argument.")
      else
        match PyStr_AsString comment with
        | Some p =>
            do _u <- call_mut (PyPathConstraint_AsPathConstraint self)
                       (setComment (cstring p));
            nret (PyReturn Py_None)
        | None => nabort
        end).

(** [PathConstraint_callbacks]: the method table of the type. *)
Definition PathConstraint_callbacks : list (string * PyCFunction) :=
  [ ("getBranchConstraints"%string, PathConstraint_getBranchConstraints);
    ("getComment"%string, PathConstraint_getComment);
    ("getSourceAddress"%string, PathConstraint_getSourceAddress);
    ("getTakenAddress"%string, PathConstraint_getTakenAddress);
    ("getTakenPredicate"%string, PathConstraint_getTakenPredicate);
    ("getThreadId"%string, PathConstraint_getThreadId);
    ("isMultipleBranches"%string, PathConstraint_isMultipleBranches);
    ("setComment"%string, PathConstraint_setComment) ].

(** The getters: every method of the table but [setComment]. *)
Definition getters : list (string * PyCFunction) :=
  filter (fun m => negb (String.eqb (fst m) "setComment")) PathConstraint_callbacks.

(** [PyPathConstraint(pc)]: the wrapper of an entry.  [PyObject_NEW] may
    fail ([allocated = false]) and then [NULL] is returned; otherwise the
    wrapper points to [new PathConstraint(pc)], a copy at a fresh location. *)
Definition PyPathConstraint (allocated : bool) (src : PathConstraint) (σ : Heap)
    : option PathConstraint_Object * Heap :=
  if allocated
  then
    let l := fresh (dom σ) in
    (Some (mkObject l), <[l := src]> σ)
  else (None, σ).

(** ** Reading a dictionary *)

Fixpoint dict_get (items : list (string * PyObject)) (key : string) : option PyObject :=
  match items with
  | [] => None
  | (k, v) :: rest => if String.eqb k key then Some v else dict_get rest key
  end.

(** [dict[key]] for a string key; [None] when the object is no dictionary
    or has no such key. *)
Definition PyDict_GetItemString (dict : PyObject) (key : string) : option PyObject :=
  match dict with
  | PyDict items => dict_get items key
  | _ => None
  end.

(** ** The life of a wrapper *)

(** A run of method calls through one wrapper: each call is a method of the
    object and its argument. *)
Definition run_methods (self : PathConstraint_Object)
    (calls : list (PyCFunction * PyObject)) (σ : Heap) : Heap :=
  fold_left (fun σ c => snd (fst c self (snd c) σ)) calls σ.

(** ** The binding: initArchNamespace.cpp *)

(** The enumerators of [triton::arch] that the namespace exposes.  Their
    numeric values are set in [triton/architecture.hpp], which is not among
    the sources: the functions below take them as the parameter [value]. *)
Inductive architecture_e : Type :=
  | ARCH_AARCH64
  | ARCH_ARM32
  | ARCH_RV32
  | ARCH_RV64
  | ARCH_X86
  | ARCH_X86_64.

(** [xPyDict_SetItemString(dict, key, value)]: as [xPyDict_SetItem], the key
    being given as a C string. *)
Definition xPyDict_SetItemString (dict : PyObject) (key : string) (value : PyObject)
    : PyObject :=
  match dict with
  | PyDict items => PyDict (dict_set items (cstring key) value)
  | other => other
  end.

(** [initArchNamespace(archDict)]: the dictionary is updated in place; the
    model returns the updated dictionary. *)
Definition initArchNamespace (value : architecture_e -> Z) (archDict : PyObject) : PyObject :=
  let archDict := xPyDict_SetItemString archDict "AARCH64" (PyLong_FromUint32 (value ARCH_AARCH64)) in
  let archDict := xPyDict_SetItemString archDict "ARM32" (PyLong_FromUint32 (value ARCH_ARM32)) in
  let archDict := xPyDict_SetItemString archDict "RV32" (PyLong_FromUint32 (value ARCH_RV32)) in
  let archDict := xPyDict_SetItemString archDict "RV64" (PyLong_FromUint32 (value ARCH_RV64)) in
  let archDict := xPyDict_SetItemString archDict "X86" (PyLong_FromUint32 (value ARCH_X86)) in
  let archDict := xPyDict_SetItemString archDict "X86_64" (PyLong_FromUint32 (value ARCH_X86_64)) in
  archDict.

(** The name under which the namespace holds an enumerator. *)
Definition ARCH_name (a : architecture_e) : string :=
  match a with
  | ARCH_AARCH64 => "AARCH64"
  | ARCH_ARM32 => "ARM32"
  | ARCH_RV32 => "RV32"
  | ARCH_RV64 => "RV64"
  | ARCH_X86 => "X86"
  | ARCH_X86_64 => "X86_64"
  end.

(** ** Predicates used in the statements *)

(** Exactly one record of the sequence is taken: some index holds a taken
    record and every index holding a taken record is that one. *)
Definition exactly_one_taken (bs : list BranchRecord) : Prop :=
  exists i : nat,
    (exists b, bs !! i = Some b /\ isTaken b = true) /\
    (forall j b', bs !! j = Some b' -> isTaken b' = true -> j = i).

(** The addresses of a record fit the 64 bits of their type. *)
Definition in_u64 (v : Z) : Prop := (0 <= v < 2 ^ 64)%Z.

Definition addresses_in_range (b : BranchRecord) : Prop :=
  in_u64 (sourceAddress b) /\ in_u64 (destinationAddress b).

(** Whether a string holds a NUL character. *)
Fixpoint has_nul (s : string) : bool :=
  match s with
  | EmptyString => false
  | String c rest => Ascii.eqb c Ascii.zero || has_nul rest
  end.

(** ** Proof steps shared by the lemmas on the binding *)

(** Unfolds the native monad under a method body. *)
Ltac run_binding :=
  unfold try_catch, nbind, nret, nlift, call_const, call_mut,
    PyPathConstraint_AsPathConstraint.

Ltac run_binding_in H :=
  unfold try_catch, nbind, nret, nlift, call_const, call_mut,
    PyPathConstraint_AsPathConstraint in H.

(** Case analysis on the method of the table a getter is. *)
Ltac each_getter Hin :=
  unfold getters, PathConstraint_callbacks in Hin;
  repeat (apply elem_of_cons in Hin as [Hin|Hin]; [injection Hin as -> ->|]);
  [..|inversion Hin].

(** ** Facts about the entry invariant *)

Lemma countTaken_app (xs ys : list BranchRecord) :
  countTaken (xs ++ ys) = countTaken xs + countTaken ys.
Proof.
  induction xs as [|x xs IH]; simpl; [reflexivity|].
  rewrite IH. lia.
Qed.

Lemma countTaken_zero (bs : list BranchRecord) :
  countTaken bs = 0 -> forall j b, bs !! j = Some b -> isTaken b = false.
Proof.
  induction bs as [|x bs IH]; intros Hc j b Hj.
  - destruct j; discriminate.
  - simpl in Hc. destruct (isTaken x) eqn:Hx; [discriminate|].
    destruct j as [|j]; simpl in Hj.
    + injection Hj as <-. exact Hx.
    + eapply IH; [lia | exact Hj].
Qed.

Lemma countTaken_one_exactly (bs : list BranchRecord) :
  countTaken bs = 1 -> exactly_one_taken bs.
Proof.
  induction bs as [|x bs IH]; simpl; intros Hc; [discriminate|].
  destruct (isTaken x) eqn:Hx; simpl in Hc.
  - exists 0. split.
    + exists x. split; [reflexivity | exact Hx].
    + intros [|j] b' Hj Hb'; [reflexivity|]. simpl in Hj.
      assert (isTaken b' = false) as Hf by (eapply countTaken_zero; [|exact Hj]; lia).
      congruence.
  - destruct IH as (i & (b & Hi & Hb) & Huniq); [lia|].
    exists (S i). split.
    + exists b. split; assumption.
    + intros [|j] b' Hj Hb'; simpl in Hj.
      * injection Hj as <-. congruence.
      * f_equal. eapply Huniq; eassumption.
Qed.

Lemma exactly_one_countTaken (bs : list BranchRecord) :
  exactly_one_taken bs -> countTaken bs = 1.
Proof.
  induction bs as [|x bs IH]; intros (i & (b & Hi & Hb) & Huniq).
  - destruct i; discriminate.
  - simpl. destruct (isTaken x) eqn:Hx.
    + assert (i = 0) as -> by (symmetry; apply (Huniq 0 x); [reflexivity | exact Hx]).
      enough (countTaken bs = 0) by lia.
      destruct (countTaken bs) eqn:Hc; [reflexivity|]. exfalso.
      clear IH Hi Hb b.
      assert (exists j b', bs !! j = Some b' /\ isTaken b' = true) as (j & b' & Hj & Hb').
      { clear Huniq. induction bs as [|y bs IHbs]; simpl in Hc; [discriminate|].
        destruct (isTaken y) eqn:Hy.
        - exists 0, y. split; [reflexivity | exact Hy].
        - destruct IHbs as (j & b' & Hj & Hb'); [exact Hc|].
          exists (S j), b'. split; assumption. }
      specialize (Huniq (S j) b' Hj Hb'). discriminate.
    + destruct i as [|i]; simpl in Hi.
      * injection Hi as <-. congruence.
      * simpl. apply IH. exists i. split.
        -- exists b. split; assumption.
        -- intros j b' Hj Hb'. pose proof (Huniq (S j) b' Hj Hb') as Hs. congruence.
Qed.

(** Under the invariant the scan finds the taken record, and any taken
    record of the entry is the one found. *)
Lemma takenBranch_unique (bs : list BranchRecord) (b : BranchRecord) :
  countTaken bs = 1 -> b ∈ bs -> isTaken b = true -> takenBranch bs = Some b.
Proof.
  induction bs as [|x bs IH]; simpl; intros Hc Hin Hb; [discriminate|].
  destruct (isTaken x) eqn:Hx; simpl in Hc.
  - apply elem_of_cons in Hin as [->|Hin]; [reflexivity|].
    apply list_elem_of_lookup in Hin as [j Hj].
    assert (isTaken b = false) by (eapply countTaken_zero; [|exact Hj]; lia).
    congruence.
  - apply elem_of_cons in Hin as [->|Hin]; [congruence|].
    apply IH; [lia | assumption | assumption].
Qed.

Lemma takenBranch_some (bs : list BranchRecord) :
  countTaken bs = 1 -> exists b, takenBranch bs = Some b /\ b ∈ bs /\ isTaken b = true.
Proof.
  induction bs as [|x bs IH]; simpl; intros Hc; [discriminate|].
  destruct (isTaken x) eqn:Hx; simpl in Hc.
  - exists x. repeat split; [apply elem_of_cons; left; reflexivity | exact Hx].
  - destruct IH as (b & Hb & Hin & Ht); [lia|].
    exists b. repeat split; [exact Hb | apply elem_of_cons; right; exact Hin | exact Ht].
Qed.

Lemma fromTaken_ok {A : Type} (f : BranchRecord -> A) (e : PathConstraint) :
  entry_ok e -> exists b, fromTaken f e = Ok (f b) /\ b ∈ branches e /\ isTaken b = true.
Proof.
  intros He. destruct (takenBranch_some _ He) as (b & Hb & Hin & Ht).
  exists b. unfold fromTaken. rewrite Hb. auto.
Qed.

(** ** The trail keeps the invariant *)

Lemma appendEntry_keeps (bs : list BranchRecord) (tid : Z) (text : string)
    (trail : PathConstraintTrail) :
  Forall entry_ok trail -> Forall entry_ok (snd (appendEntry bs tid text trail)).
Proof.
  intros Ht. unfold appendEntry. destruct bs as [|b bs]; [exact Ht|].
  destruct (Nat.eqb (countTaken (b :: bs)) 1) eqn:Hc; simpl; [|exact Ht].
  apply Forall_app. split; [exact Ht|].
  constructor; [|constructor]. apply Nat.eqb_eq in Hc. exact Hc.
Qed.

Lemma session_from_keeps (calls : list AppendCall) (trail : PathConstraintTrail) :
  Forall entry_ok trail ->
  Forall entry_ok
    (fold_left (fun trail '(bs, tid, text) => snd (appendEntry bs tid text trail)) calls trail).
Proof.
  revert trail. induction calls as [|[[bs tid] text] calls IH]; intros trail Ht; simpl.
  - exact Ht.
  - apply IH. apply appendEntry_keeps. exact Ht.
Qed.

Lemma session_ok (calls : list AppendCall) : Forall entry_ok (session calls).
Proof. apply session_from_keeps. constructor. Qed.

Lemma session_snoc (calls : list AppendCall) (bs : list BranchRecord) (tid : Z) (text : string) :
  session (calls ++ [(bs, tid, text)]) = snd (appendEntry bs tid text (session calls)).
Proof. unfold session. rewrite fold_left_app. reflexivity. Qed.

(** ** Facts about the path predicate *)

Lemma takenPredicates_ok (entries : list PathConstraint) :
  Forall entry_ok entries ->
  exists ps, takenPredicates entries = Ok ps /\
             Forall2 (fun e p => getTakenPredicate e = Ok p) entries ps.
Proof.
  induction 1 as [|e entries He _ IH]; simpl.
  - exists []. split; [reflexivity | constructor].
  - destruct IH as (ps & Hps & Hall).
    destruct (fromTaken_ok predicate e He) as (b & Hb & _).
    exists (predicate b :: ps). unfold getTakenPredicate at 1. rewrite Hb. cbn.
    rewrite Hps. cbn. split; [reflexivity|].
    constructor; [exact Hb | exact Hall].
Qed.

Lemma takenPredicates_snoc (entries : list PathConstraint) (e : PathConstraint)
    (ps : list AbstractNode) (p : AbstractNode) :
  takenPredicates entries = Ok ps -> getTakenPredicate e = Ok p ->
  takenPredicates (entries ++ [e]) = Ok (ps ++ [p]).
Proof.
  revert ps. induction entries as [|x entries IH]; intros ps Hps Hp; simpl in *.
  - injection Hps as <-. rewrite Hp. reflexivity.
  - destruct (getTakenPredicate x) as [q|err]; cbn in *; [|discriminate].
    destruct (takenPredicates entries) as [qs|err]; cbn in *; [|discriminate].
    injection Hps as <-. rewrite (IH qs eq_refl Hp). reflexivity.
Qed.

Lemma takenPredicates_length (entries : list PathConstraint) (ps : list AbstractNode) :
  takenPredicates entries = Ok ps -> length ps = length entries.
Proof.
  revert ps. induction entries as [|x entries IH]; intros ps Hps; simpl in *.
  - injection Hps as <-. reflexivity.
  - destruct (getTakenPredicate x) as [q|err]; cbn in *; [|discriminate].
    destruct (takenPredicates entries) as [qs|err]; cbn in *; [|discriminate].
    injection Hps as <-. simpl. f_equal. apply IH. reflexivity.
Qed.

(** ** Running the binding on a live handle *)

Lemma uint64_in_range (v : Z) : in_u64 v -> uint64 v = v.
Proof. intros Hv. unfold uint64. apply Z.mod_small. exact Hv. Qed.

Lemma uint32_range (v : Z) : (0 <= uint32 v < 2 ^ 32)%Z.
Proof. unfold uint32. apply Z.mod_pos_bound. reflexivity. Qed.

Lemma cstring_no_nul (s : string) : has_nul s = false -> cstring s = s.
Proof.
  induction s as [|c s IH]; simpl; [reflexivity|].
  destruct (Ascii.eqb c zero); simpl; [discriminate|].
  intros Hs. rewrite (IH Hs). reflexivity.
Qed.

Lemma cstring_idem (s : string) : cstring (cstring s) = cstring s.
Proof.
  induction s as [|c s IH]; simpl; [reflexivity|].
  destruct (Ascii.eqb c zero) eqn:Hc; simpl; [reflexivity|].
  rewrite Hc, IH. reflexivity.
Qed.

Lemma what_cstring (e : Exception) : cstring (what e) = what e.
Proof. destruct e; reflexivity. Qed.

(** A NUL byte is a character of its own: the decoder takes it at a
    character boundary only. *)
Lemma utf8_step_nul (st st' : utf8_state) :
  utf8_step st Ascii.zero = Some st' -> st = U_start /\ st' = U_start.
Proof. destruct st; simpl; intros H; try discriminate H. injection H as <-. auto. Qed.

Lemma utf8_run_cstring (s : string) :
  forall st, utf8_run st s = Some U_start -> utf8_run st (cstring s) = Some U_start.
Proof.
  induction s as [|c s IH]; intros st Hrun; simpl in *; [exact Hrun|].
  destruct (utf8_step st c) as [st'|] eqn:Hstep; [|discriminate].
  destruct (Ascii.eqb c zero) eqn:Hc; simpl.
  - apply Ascii.eqb_eq in Hc. subst c.
    destruct (utf8_step_nul _ _ Hstep) as [-> _]. reflexivity.
  - rewrite Hstep. apply IH. exact Hrun.
Qed.

(** Well-formed UTF-8 cut at its first NUL is well-formed UTF-8. *)
Lemma is_utf8_cstring (s : string) : is_utf8 s = true -> is_utf8 (cstring s) = true.
Proof.
  unfold is_utf8. intros H.
  destruct (utf8_run U_start s) as [st|] eqn:Hrun; [|discriminate].
  destruct st; try discriminate.
  rewrite (utf8_run_cstring s U_start Hrun). reflexivity.
Qed.

Lemma Py_BuildValue_s_utf8 (p : string) :
  is_utf8 (cstring p) = true -> Py_BuildValue_s p = PyReturn (PyStr (cstring p)).
Proof. intros H. unfold Py_BuildValue_s. rewrite H. reflexivity. Qed.

Lemma Py_BuildValue_s_not_utf8 (p : string) :
  is_utf8 (cstring p) = false ->
  exists msg, Py_BuildValue_s p = PyRaised PyExc_UnicodeDecodeError msg.
Proof. intros H. unfold Py_BuildValue_s. rewrite H. eexists. reflexivity. Qed.

Lemma branch_dict_items (b : BranchRecord) :
  branch_dict b =
  PyDict [ ("isTaken"%string, PyBool (isTaken b));
           ("srcAddr"%string, PyLong (uint64 (sourceAddress b)));
           ("dstAddr"%string, PyLong (uint64 (destinationAddress b)));
           ("constraint"%string, AstNode_Object (predicate b)) ].
Proof. destruct b as [[|] src dst p]; reflexivity. Qed.

(** The loop invariant: after the rounds for the indices below [index] the
    list holds their dictionaries there and is untouched above. *)
Lemma branch_loop_fills (bs : list BranchRecord) (rounds : nat) :
  forall (index : nat) (items : list PyObject),
    index + rounds = length bs -> length items = length bs ->
    branch_loop bs rounds index (PyList items)
    = PyList (take index items ++ map branch_dict (drop index bs)).
Proof.
  induction rounds as [|rounds IH]; intros index items Hr Hlen; simpl.
  - rewrite drop_ge by lia. rewrite take_ge by lia. rewrite app_nil_r. reflexivity.
  - destruct (lookup_lt_is_Some_2 bs index) as [b Hb]; [lia|].
    rewrite Hb. simpl. rewrite IH; [|lia|rewrite length_insert; exact Hlen].
    f_equal.
    rewrite (take_S_r _ index (branch_dict b)).
    + rewrite take_insert_ge by lia. rewrite <- app_assoc. simpl.
      rewrite (drop_S bs b index Hb). reflexivity.
    + apply list_lookup_insert_eq. lia.
Qed.

Section LiveHandle.
(** [self] designates the entry [e] in the heap [σ]. *)
Variables (self : PathConstraint_Object) (σ : Heap) (e : PathConstraint).
Hypothesis Hlive : σ !! pc self = Some e.

Lemma getBranchConstraints_live (noarg : PyObject) :
  PathConstraint_getBranchConstraints self noarg σ
  = (PyReturn (PyList (map branch_dict (branches e))), σ).
Proof.
  unfold PathConstraint_getBranchConstraints. run_binding. rewrite Hlive.
  unfold getBranchConstraints, xPyList_New.
  rewrite branch_loop_fills; [reflexivity | reflexivity | apply length_replicate].
Qed.

Lemma getComment_live (noarg : PyObject) :
  PathConstraint_getComment self noarg σ = (Py_BuildValue_s (comment e), σ).
Proof. unfold PathConstraint_getComment. run_binding. rewrite Hlive. reflexivity. Qed.

Lemma getThreadId_live (noarg : PyObject) :
  PathConstraint_getThreadId self noarg σ = (PyReturn (PyLong (uint32 (threadId e))), σ).
Proof. unfold PathConstraint_getThreadId. run_binding. rewrite Hlive. reflexivity. Qed.

Lemma isMultipleBranches_live (noarg : PyObject) :
  PathConstraint_isMultipleBranches self noarg σ
  = (PyReturn (PyBool (isMultipleBranches e)), σ).
Proof.
  unfold PathConstraint_isMultipleBranches. run_binding. rewrite Hlive.
  destruct (isMultipleBranches e); reflexivity.
Qed.

Lemma getSourceAddress_live (noarg : PyObject) (b : BranchRecord) :
  takenBranch (branches e) = Some b ->
  PathConstraint_getSourceAddress self noarg σ
  = (PyReturn (PyLong (uint64 (sourceAddress b))), σ).
Proof.
  intros Hb. unfold PathConstraint_getSourceAddress. run_binding. rewrite Hlive.
  unfold getSourceAddress, fromTaken. rewrite Hb. reflexivity.
Qed.

Lemma getTakenAddress_live (noarg : PyObject) (b : BranchRecord) :
  takenBranch (branches e) = Some b ->
  PathConstraint_getTakenAddress self noarg σ
  = (PyReturn (PyLong (uint64 (destinationAddress b))), σ).
Proof.
  intros Hb. unfold PathConstraint_getTakenAddress. run_binding. rewrite Hlive.
  unfold getTakenAddress, fromTaken. rewrite Hb. reflexivity.
Qed.

Lemma getTakenPredicate_live (noarg : PyObject) (b : BranchRecord) :
  takenBranch (branches e) = Some b ->
  PathConstraint_getTakenPredicate self noarg σ
  = (PyReturn (AstNode_Object (predicate b)), σ).
Proof.
  intros Hb. unfold PathConstraint_getTakenPredicate. run_binding. rewrite Hlive.
  unfold getTakenPredicate, fromTaken. rewrite Hb. reflexivity.
Qed.

Lemma setComment_live (text : string) :
  PathConstraint_setComment self (PyStr text) σ
  = (PyReturn Py_None, <[pc self := setComment (cstring text) e]> σ).
Proof.
  unfold PathConstraint_setComment. run_binding. simpl. rewrite Hlive. reflexivity.
Qed.
End LiveHandle.

Lemma setComment_not_str (self : PathConstraint_Object) (arg : PyObject) (σ : Heap) :
  PyStr_Check arg = false ->
  PathConstraint_setComment self arg σ
  = (PyRaised PyExc_TypeError
       "PathConstraint::setComment(): Expected a string as argument.", σ).
Proof.
  intros Hs. unfold PathConstraint_setComment. run_binding. rewrite Hs. reflexivity.
Qed.

(** A [str] with no UTF-8 form passes the type check; the [NULL] that
    [PyStr_AsString] returns for it goes unchecked into a [std::string]:
    the call does not come back and nothing is stored. *)
Lemma setComment_surrogates (self : PathConstraint_Object) (code_points : list N) (σ : Heap) :
  PathConstraint_setComment self (PyStr_surrogates code_points) σ = (PyAbort, σ).
Proof. reflexivity. Qed.

Lemma Py_BuildValue_s_inv (p c : string) :
  Py_BuildValue_s p = PyReturn (PyStr c) -> c = cstring p /\ is_utf8 c = true.
Proof.
  unfold Py_BuildValue_s. destruct (is_utf8 (cstring p)) eqn:Hutf; [|discriminate].
  intros H. injection H as <-. auto.
Qed.

(** On a handle that designates no entry a getter is undefined: no test
    precedes the use of the pointer. *)
Lemma getter_dead (name : string) (f : PyCFunction) (self : PathConstraint_Object)
    (noarg : PyObject) (σ : Heap) :
  (name, f) ∈ getters -> σ !! pc self = None ->
  f self noarg σ = (PyAbort, σ).
Proof.
  intros Hin Hl. unfold getters, PathConstraint_callbacks in Hin.
  repeat (apply elem_of_cons in Hin as [Hin|Hin];
          [injection Hin as -> ->; cbv beta delta [PathConstraint_getBranchConstraints
             PathConstraint_getComment PathConstraint_getSourceAddress
             PathConstraint_getTakenAddress PathConstraint_getTakenPredicate
             PathConstraint_getThreadId PathConstraint_isMultipleBranches];
           run_binding; rewrite Hl; reflexivity|]).
  inversion Hin.
Qed.

Lemma getter_pure (name : string) (f : PyCFunction) (self : PathConstraint_Object)
    (noarg : PyObject) (σ : Heap) :
  (name, f) ∈ getters -> snd (f self noarg σ) = σ.
Proof.
  intros Hin. destruct (σ !! pc self) as [e|] eqn:Hl.
  - each_getter Hin.
    + rewrite (getBranchConstraints_live _ _ _ Hl _). reflexivity.
    + rewrite (getComment_live _ _ _ Hl _). reflexivity.
    + unfold PathConstraint_getSourceAddress. run_binding. rewrite Hl.
      destruct (getSourceAddress e); reflexivity.
    + unfold PathConstraint_getTakenAddress. run_binding. rewrite Hl.
      destruct (getTakenAddress e); reflexivity.
    + unfold PathConstraint_getTakenPredicate. run_binding. rewrite Hl.
      destruct (getTakenPredicate e); reflexivity.
    + rewrite (getThreadId_live _ _ _ Hl _). reflexivity.
    + rewrite (isMultipleBranches_live _ _ _ Hl _). reflexivity.
  - rewrite (getter_dead name f self noarg σ Hin Hl). reflexivity.
Qed.

Lemma PyPathConstraint_fresh (allocated : bool) (src : PathConstraint) (σ σ1 : Heap)
    (self : PathConstraint_Object) :
  PyPathConstraint allocated src σ = (Some self, σ1) ->
  σ !! pc self = None /\ σ1 = <[pc self := src]> σ.
Proof.
  unfold PyPathConstraint. destruct allocated; [|discriminate].
  intros H. injection H as <- <-. simpl. split; [|reflexivity].
  apply not_elem_of_dom. apply is_fresh.
Qed.

Lemma callbacks_split (name : string) (f : PyCFunction) :
  (name, f) ∈ PathConstraint_callbacks ->
  (name, f) ∈ getters \/ name = "setComment"%string.
Proof.
  intros Hin. unfold PathConstraint_callbacks in Hin.
  repeat (apply elem_of_cons in Hin as [Hin|Hin];
          [injection Hin as -> ->;
           first [ right; reflexivity
                 | left; unfold getters, PathConstraint_callbacks;
                   repeat first [ apply elem_of_cons; left; reflexivity
                                | apply elem_of_cons; right ] ]|]).
  inversion Hin.
Qed.

(** ** The end-to-end scenarios of the design document *)

(** Scenario 1: a two-way entry whose second edge is taken. *)
Example scenario_two_way :
  let bs := [mkBranch false 4096 8192 (Opaque 1); mkBranch true 4096 4100 (Opaque 2)] in
  let trail := snd (appendEntry bs (-1) EmptyString []) in
  exists e self σ,
    trail = [e] /\ PyPathConstraint true e ∅ = (Some self, σ) /\
    fst (PathConstraint_getTakenAddress self Py_None σ) = PyReturn (PyLong 4100) /\
    fst (PathConstraint_isMultipleBranches self Py_None σ) = PyReturn Py_True /\
    fst (PathConstraint_getTakenPredicate self Py_None σ)
    = PyReturn (AstNode_Object (Opaque 2)).
Proof.
  intros bs trail. eexists _, _, _. split; [reflexivity|]. split; [reflexivity|].
  repeat split; vm_compute; reflexivity.
Qed.

(** Scenario 2: a single-branch entry is not a multiple-branches entry. *)
Example scenario_single_branch :
  let bs := [mkBranch true 12288 12292 (Opaque 3)] in
  let trail := snd (appendEntry bs (-1) EmptyString []) in
  exists e self σ,
    trail = [e] /\ PyPathConstraint true e ∅ = (Some self, σ) /\
    fst (PathConstraint_isMultipleBranches self Py_None σ) = PyReturn Py_False.
Proof.
  intros bs trail. eexists _, _, _. split; [reflexivity|]. split; [reflexivity|].
  vm_compute. reflexivity.
Qed.

(** Scenario 3: the path predicate over two entries, and the same with the
    decision of the second one negated. *)
Example scenario_two_entries :
  let entry1 := [mkBranch false 4096 8192 (Opaque 1); mkBranch true 4096 4100 (Opaque 2)] in
  let entry2 := [mkBranch true 8192 8196 (Opaque 3); mkBranch false 8192 12288 (Opaque 4)] in
  let trail := session [(entry1, 0%Z, EmptyString); (entry2, 0%Z, EmptyString)] in
  pathPredicate trail 2 = Ok (Conjunction [Opaque 2; Opaque 3]) /\
  alternatePredicate trail 1 Negated = Ok (Conjunction [Opaque 2; Not (Opaque 3)]) /\
  alternatePredicate trail 1 (NonTaken 1) = Ok (Conjunction [Opaque 2; Opaque 4]).
Proof. repeat split. Qed.

(** * The claims *)

(** C1. Every entry of a trail built by [appendEntry] has exactly one record
    with [isTaken = true].  A call of [appendEntry] whose branch sequence is
    empty, or has no taken record, or has two or more, fails with
    [InvalidConstraintError] and leaves the trail as it was: same trail,
    same length, no entry added. *)
Theorem appendEntry_one_taken_or_rejected
    (calls : list AppendCall) (bs : list BranchRecord) (tid : Z) (text : string)
    (trail : PathConstraintTrail) :
  Forall (fun e => exactly_one_taken (branches e)) (session calls) /\
  (bs = [] \/ countTaken bs = 0 \/ 2 <= countTaken bs ->
     appendEntry bs tid text trail = (Throw InvalidConstraintError, trail) /\
     length (snd (appendEntry bs tid text trail)) = length trail /\
     session (calls ++ [(bs, tid, text)]) = session calls).
Proof.
  split.
  - eapply Forall_impl; [apply session_ok|].
    intros e He. apply countTaken_one_exactly. exact He.
  - intros Hbad.
    assert (forall t, appendEntry bs tid text t = (Throw InvalidConstraintError, t)) as Hfail.
    { intros t. unfold appendEntry. destruct bs as [|b bs']; [reflexivity|].
      destruct (Nat.eqb (countTaken (b :: bs')) 1) eqn:Hc; [|reflexivity].
      apply Nat.eqb_eq in Hc. destruct Hbad as [Hbad|[Hbad|Hbad]]; [discriminate|lia|lia]. }
    rewrite session_snoc, !Hfail. auto.
Qed.

Lemma appendEntry_one_taken_or_rejected_witness :
  let both := [mkBranch true 4096 8192 (Opaque 1); mkBranch true 4096 4100 (Opaque 2)] in
  let good := [mkBranch false 4096 8192 (Opaque 1); mkBranch true 4096 4100 (Opaque 2)] in
  let trail := session [(good, (-1)%Z, EmptyString)] in
  length trail = 1 /\
  appendEntry both 0 EmptyString trail = (Throw InvalidConstraintError, trail).
Proof.
  intros both good trail. split; [reflexivity|].
  apply (appendEntry_one_taken_or_rejected [] both 0%Z EmptyString trail).
  right. right. simpl. lia.
Defined.

(** C2. For a trail built by [appendEntry] and any prefix length [n], the
    path predicate is the conjunction of the taken predicates of the first
    [n] entries, in trail order.  For an entry [k] of the trail, the
    alternate-path predicate is the conjunction for the prefix up to and
    including [k] with, at position [k], the negation of entry [k]'s taken
    predicate or the predicate of a chosen non-taken record of entry [k]. *)
Theorem pathPredicate_in_trail_order
    (calls : list AppendCall) (n k : nat) (e : PathConstraint) :
  let trail := session calls in
  (exists ps, pathPredicate trail n = Ok (Conjunction ps) /\
              Forall2 (fun e p => getTakenPredicate e = Ok p) (take n trail) ps) /\
  (trail !! k = Some e ->
   exists ps p,
     pathPredicate trail (S k) = Ok (Conjunction ps) /\
     Forall2 (fun e p => getTakenPredicate e = Ok p) (take (S k) trail) ps /\
     ps !! k = Some p /\ getTakenPredicate e = Ok p /\
     alternatePredicate trail k Negated = Ok (Conjunction (<[k := Not p]> ps)) /\
     (forall j b, branches e !! j = Some b -> isTaken b = false ->
        alternatePredicate trail k (NonTaken j)
        = Ok (Conjunction (<[k := predicate b]> ps)))).
Proof.
  intros trail.
  assert (Forall entry_ok trail) as Hok by apply session_ok.
  assert (forall m, exists ps, takenPredicates (take m trail) = Ok ps /\
            Forall2 (fun e p => getTakenPredicate e = Ok p) (take m trail) ps) as Hpre.
  { intros m. apply takenPredicates_ok. apply Forall_take. exact Hok. }
  split.
  - destruct (Hpre n) as (ps & Hps & Hall). exists ps.
    unfold pathPredicate. rewrite Hps. split; [reflexivity | exact Hall].
  - intros Hk.
    destruct (Hpre k) as (ps & Hps & Hall).
    assert (entry_ok e) as He.
    { rewrite Forall_forall in Hok. apply Hok. apply list_elem_of_lookup. eauto. }
    destruct (fromTaken_ok predicate e He) as (b0 & Hb0 & _).
    fold (getTakenPredicate e) in Hb0.
    assert (length ps = k) as Hlen.
    { rewrite (takenPredicates_length _ _ Hps), length_take.
      apply lookup_lt_Some in Hk. lia. }
    assert (forall a, <[k := a]> (ps ++ [predicate b0]) = ps ++ [a]) as Hins.
    { intros a. rewrite insert_app_r_alt by lia.
      replace (k - length ps) with 0 by lia. reflexivity. }
    exists (ps ++ [predicate b0]), (predicate b0).
    pose proof (take_S_r trail k e Hk) as Htake.
    repeat split.
    + unfold pathPredicate. rewrite Htake.
      rewrite (takenPredicates_snoc _ _ _ _ Hps Hb0). reflexivity.
    + rewrite Htake. apply Forall2_app; [exact Hall|].
      constructor; [exact Hb0 | constructor].
    + rewrite lookup_app_r by lia. replace (k - length ps) with 0 by lia. reflexivity.
    + exact Hb0.
    + unfold alternatePredicate. rewrite Hk, Hps. cbn.
      rewrite Hb0. cbn. rewrite Hins. reflexivity.
    + intros j b Hj Hb. unfold alternatePredicate. rewrite Hk, Hps. cbn.
      rewrite Hj, Hb. cbn. rewrite Hins. reflexivity.
Qed.

Lemma pathPredicate_in_trail_order_witness :
  let entry1 := [mkBranch false 4096 8192 (Opaque 1); mkBranch true 4096 4100 (Opaque 2)] in
  let entry2 := [mkBranch true 8192 8196 (Opaque 3); mkBranch false 8192 12288 (Opaque 4)] in
  let trail := session [(entry1, 0%Z, EmptyString); (entry2, 0%Z, EmptyString)] in
  pathPredicate trail 2 = Ok (Conjunction [Opaque 2; Opaque 3]) /\
  exists ps p,
    pathPredicate trail 2 = Ok (Conjunction ps) /\
    alternatePredicate trail 1 Negated = Ok (Conjunction (<[1 := Not p]> ps)).
Proof.
  intros entry1 entry2 trail. split; [reflexivity|].
  destruct (proj2 (pathPredicate_in_trail_order
                     [(entry1, 0%Z, EmptyString); (entry2, 0%Z, EmptyString)] 2 1
                     (mkPathConstraint entry2 0 EmptyString)) eq_refl)
    as (ps & p & H1 & _ & _ & _ & H2 & _).
  exists ps, p. split; [exact H1 | exact H2].
Defined.

(** C3. [isMultipleBranches] on a live entry returns [True] exactly when the
    entry has more than one branch record: [True] for two records, [False]
    for a single one. *)
Theorem isMultipleBranches_iff_size
    (self : PathConstraint_Object) (noarg : PyObject) (σ : Heap) (e : PathConstraint) :
  σ !! pc self = Some e ->
  (PathConstraint_isMultipleBranches self noarg σ = (PyReturn Py_True, σ)
   <-> 1 < length (branches e)) /\
  (PathConstraint_isMultipleBranches self noarg σ = (PyReturn Py_False, σ)
   <-> length (branches e) <= 1) /\
  (length (branches e) = 2 ->
   PathConstraint_isMultipleBranches self noarg σ = (PyReturn Py_True, σ)) /\
  (length (branches e) = 1 ->
   PathConstraint_isMultipleBranches self noarg σ = (PyReturn Py_False, σ)).
Proof.
  intros Hl. rewrite (isMultipleBranches_live _ _ _ Hl _).
  unfold isMultipleBranches, Py_True, Py_False.
  destruct (Nat.ltb_spec 1 (length (branches e))) as [Hlt|Hge].
  - repeat split; intros; try reflexivity; try lia; discriminate.
  - repeat split; intros; try reflexivity; try lia; discriminate.
Qed.

Lemma isMultipleBranches_iff_size_witness :
  let single := mkPathConstraint [mkBranch true 12288 12292 (Opaque 3)] (-1) EmptyString in
  let self := mkObject 1%positive in
  PathConstraint_isMultipleBranches self Py_None {[ 1%positive := single ]}
  = (PyReturn Py_False, {[ 1%positive := single ]}).
Proof.
  intros single self.
  apply (isMultipleBranches_iff_size self Py_None {[ 1%positive := single ]} single).
  - apply lookup_singleton_eq.
  - reflexivity.
Defined.

(** C4. On a live entry that satisfies the entry invariant, [getTakenAddress]
    is the destination address of the record whose [isTaken] flag is true and
    [getTakenPredicate] is the predicate of that same record; the Python
    methods return these two values. *)
Theorem getTaken_of_the_taken_record
    (self : PathConstraint_Object) (noarg : PyObject) (σ : Heap)
    (e : PathConstraint) (b : BranchRecord) :
  σ !! pc self = Some e -> entry_ok e ->
  b ∈ branches e -> isTaken b = true -> in_u64 (destinationAddress b) ->
  getTakenAddress e = Ok (destinationAddress b) /\
  getTakenPredicate e = Ok (predicate b) /\
  PathConstraint_getTakenAddress self noarg σ
  = (PyReturn (PyLong (destinationAddress b)), σ) /\
  PathConstraint_getTakenPredicate self noarg σ
  = (PyReturn (AstNode_Object (predicate b)), σ).
Proof.
  intros Hl He Hin Hb Hrange.
  pose proof (takenBranch_unique _ _ He Hin Hb) as Ht.
  repeat split.
  - unfold getTakenAddress, fromTaken. rewrite Ht. reflexivity.
  - unfold getTakenPredicate, fromTaken. rewrite Ht. reflexivity.
  - rewrite (getTakenAddress_live _ _ _ Hl _ _ Ht), (uint64_in_range _ Hrange). reflexivity.
  - apply (getTakenPredicate_live _ _ _ Hl _ _ Ht).
Qed.

Lemma getTaken_of_the_taken_record_witness :
  let taken := mkBranch true 4096 4100 (Opaque 2) in
  let entry := mkPathConstraint [mkBranch false 4096 8192 (Opaque 1); taken] (-1) EmptyString in
  let self := mkObject 1%positive in
  PathConstraint_getTakenAddress self Py_None {[ 1%positive := entry ]}
  = (PyReturn (PyLong 4100), {[ 1%positive := entry ]}) /\
  PathConstraint_getTakenPredicate self Py_None {[ 1%positive := entry ]}
  = (PyReturn (AstNode_Object (Opaque 2)), {[ 1%positive := entry ]}).
Proof.
  intros taken entry self.
  apply (getTaken_of_the_taken_record self Py_None {[ 1%positive := entry ]} entry taken).
  - apply lookup_singleton_eq.
  - reflexivity.
  - apply elem_of_cons. right. apply elem_of_cons. left. reflexivity.
  - reflexivity.
  - unfold in_u64. simpl. lia.
Defined.

(** C5. For an entry built by [appendEntry] from the branch sequence [bs],
    [getBranchConstraints] returns a list of the length of [bs] whose
    element number [i] is the dictionary holding the [isTaken] flag, the
    source address, the destination address and the predicate of record
    number [i] of [bs]; the call leaves the heap, and so the entry, as it
    was. *)
Theorem getBranchConstraints_round_trip
    (bs : list BranchRecord) (tid : Z) (text : string) (trail trail' : PathConstraintTrail)
    (e : PathConstraint) (self : PathConstraint_Object) (noarg : PyObject) (σ : Heap) :
  appendEntry bs tid text trail = (Ok tt, trail') ->
  last trail' = Some e ->
  Forall addresses_in_range bs ->
  σ !! pc self = Some e ->
  trail' = trail ++ [e] /\
  exists items,
    PathConstraint_getBranchConstraints self noarg σ = (PyReturn (PyList items), σ) /\
    length items = length bs /\
    forall i b, bs !! i = Some b ->
      items !! i =
      Some (PyDict [ ("isTaken"%string, PyBool (isTaken b));
                     ("srcAddr"%string, PyLong (sourceAddress b));
                     ("dstAddr"%string, PyLong (destinationAddress b));
                     ("constraint"%string, AstNode_Object (predicate b)) ]).
Proof.
  intros Happ Hlast Hrange Hl.
  assert (trail' = trail ++ [mkPathConstraint bs tid text]) as ->.
  { unfold appendEntry in Happ. destruct bs as [|b0 bs0]; [discriminate|].
    destruct (Nat.eqb (countTaken (b0 :: bs0)) 1); [|discriminate].
    injection Happ as <-. reflexivity. }
  rewrite last_snoc in Hlast. injection Hlast as <-.
  split; [reflexivity|].
  exists (map branch_dict bs). split; [|split].
  - apply (getBranchConstraints_live _ _ _ Hl _).
  - apply length_map.
  - intros i b Hi.
    change (map branch_dict bs) with (branch_dict <$> bs).
    rewrite list_lookup_fmap, Hi. simpl. f_equal.
    rewrite branch_dict_items.
    rewrite Forall_forall in Hrange.
    destruct (Hrange b) as [Hsrc Hdst]; [apply list_elem_of_lookup; eauto|].
    rewrite (uint64_in_range _ Hsrc), (uint64_in_range _ Hdst). reflexivity.
Qed.

Lemma getBranchConstraints_round_trip_witness :
  let bs := [mkBranch false 4096 8192 (Opaque 1); mkBranch true 4096 4100 (Opaque 2)] in
  let e := mkPathConstraint bs (-1) EmptyString in
  let self := mkObject 1%positive in
  exists items,
    PathConstraint_getBranchConstraints self Py_None {[ 1%positive := e ]}
    = (PyReturn (PyList items), {[ 1%positive := e ]}) /\
    length items = 2.
Proof.
  intros bs e self.
  destruct (getBranchConstraints_round_trip bs (-1) EmptyString [] [e] e self Py_None
              {[ 1%positive := e ]}) as (_ & items & Hcall & Hlen & _).
  - reflexivity.
  - reflexivity.
  - repeat constructor; unfold in_u64; simpl; lia.
  - apply lookup_singleton_eq.
  - exists items. split; [exact Hcall | exact Hlen].
Defined.

(** C6 (the code departs from it). [getThreadId] hands the thread id to
    [PyLong_FromUint32]: the Python integer it returns lies between [0] and
    [2^32 - 1], and for the undefined thread id [-1] it is [4294967295],
    not [-1]. *)
Theorem getThreadId_is_unsigned
    (self : PathConstraint_Object) (noarg : PyObject) (σ : Heap) (e : PathConstraint) :
  σ !! pc self = Some e ->
  exists v,
    PathConstraint_getThreadId self noarg σ = (PyReturn (PyLong v), σ) /\
    (0 <= v < 2 ^ 32)%Z /\
    (threadId e = (-1)%Z -> v = 4294967295%Z /\ v <> (-1)%Z).
Proof.
  intros Hl. exists (uint32 (threadId e)). split; [|split].
  - apply (getThreadId_live _ _ _ Hl _).
  - apply uint32_range.
  - intros ->. split; [reflexivity | discriminate].
Qed.

Lemma getThreadId_is_unsigned_witness :
  let e := mkPathConstraint [mkBranch true 4096 4100 (Opaque 1)] (-1) EmptyString in
  exists v,
    PathConstraint_getThreadId (mkObject 1%positive) Py_None {[ 1%positive := e ]}
    = (PyReturn (PyLong v), {[ 1%positive := e ]}) /\ v = 4294967295%Z.
Proof.
  intros e.
  destruct (getThreadId_is_unsigned (mkObject 1%positive) Py_None {[ 1%positive := e ]} e)
    as (v & Hcall & _ & Hv).
  - apply lookup_singleton_eq.
  - exists v. split; [exact Hcall | apply Hv; reflexivity].
Defined.

(** C7 as stated fails: a getter fails on a live, well-formed entry (the
    comment is not UTF-8 and [getComment] raises [UnicodeDecodeError]); and
    on a handle that designates no entry no [InvalidHandleError] is
    signalled, the pointer is used unchecked. *)
Lemma getComment_fails_on_live_entry :
  let e := mkPathConstraint [mkBranch true 4096 4100 (Opaque 1)] 0
             (String "255" EmptyString) in
  let self := mkObject 1%positive in
  let σ : Heap := {[ 1%positive := e ]} in
  (σ !! pc self = Some e /\ entry_ok e /\
   (exists msg, PathConstraint_getComment self Py_None σ
                = (PyRaised PyExc_UnicodeDecodeError msg, σ)) /\
   ~ (exists v, fst (PathConstraint_getComment self Py_None σ) = PyReturn v)) /\
  (forall exc msg,
     fst (PathConstraint_getComment self Py_None (∅ : Heap)) <> PyRaised exc msg).
Proof.
  intros e self σ. split.
  - split; [apply lookup_singleton_eq|]. split; [reflexivity|].
    rewrite (getComment_live self σ e) by apply lookup_singleton_eq.
    split; [eexists; reflexivity|]. intros [v Hv]. discriminate Hv.
  - intros exc msg. discriminate.
Qed.

(** C7 (amended). The getters are the seven methods named below.  Each
    leaves the heap as it was.  On a handle that designates an entry
    satisfying the entry invariant every getter returns an object, except
    [getComment] when the comment, read as a C string, is not well-formed
    UTF-8: it then raises [UnicodeDecodeError], and nothing else makes a
    getter fail on such a handle.  A [triton::exceptions::Exception] thrown
    by the native body of a getter comes out as a [TypeError] carrying its
    message, and on a live handle a getter raises nothing but such a
    [TypeError] or that [UnicodeDecodeError].  The handle is not checked:
    on a handle that designates no entry no [InvalidHandleError] is
    signalled and the call is undefined. *)
Theorem getters_pure_total_on_utf8_comments
    (name : string) (f : PyCFunction) (self : PathConstraint_Object) (noarg : PyObject)
    (σ : Heap) :
  (name, f) ∈ getters ->
  map fst getters =
    [ "getBranchConstraints"; "getComment"; "getSourceAddress"; "getTakenAddress";
      "getTakenPredicate"; "getThreadId"; "isMultipleBranches" ]%string /\
  snd (f self noarg σ) = σ /\
  (forall e, σ !! pc self = Some e -> entry_ok e ->
     (is_utf8 (cstring (comment e)) = true \/ name <> "getComment"%string) ->
     exists v, f self noarg σ = (PyReturn v, σ)) /\
  (forall e, σ !! pc self = Some e -> entry_ok e ->
     is_utf8 (cstring (comment e)) = false -> name = "getComment"%string ->
     exists msg, f self noarg σ = (PyRaised PyExc_UnicodeDecodeError msg, σ)) /\
  (forall e x, σ !! pc self = Some e ->
     (name = "getSourceAddress"%string /\ getSourceAddress e = Throw x) \/
     (name = "getTakenAddress"%string /\ getTakenAddress e = Throw x) \/
     (name = "getTakenPredicate"%string /\ getTakenPredicate e = Throw x) ->
     f self noarg σ = (PyRaised PyExc_TypeError (what x), σ)) /\
  (forall e exc msg, σ !! pc self = Some e ->
     fst (f self noarg σ) = PyRaised exc msg ->
     (exc = PyExc_UnicodeDecodeError /\ name = "getComment"%string /\
      is_utf8 (cstring (comment e)) = false) \/
     (exc = PyExc_TypeError /\ (exists x, msg = what x) /\ ~ entry_ok e)) /\
  (σ !! pc self = None -> f self noarg σ = (PyAbort, σ)).
Proof.
  intros Hin. split; [reflexivity|]. split; [|split; [|split; [|split; [|split]]]].
  - apply (getter_pure name f self noarg σ Hin).
  - intros e Hl He Hutf. destruct (takenBranch_some _ He) as (b & Hb & _).
    each_getter Hin; eexists.
    + apply (getBranchConstraints_live _ _ _ Hl _).
    + destruct Hutf as [Hutf|Hname]; [|contradiction Hname; reflexivity].
      rewrite (getComment_live _ _ _ Hl _), (Py_BuildValue_s_utf8 _ Hutf). reflexivity.
    + apply (getSourceAddress_live _ _ _ Hl _ _ Hb).
    + apply (getTakenAddress_live _ _ _ Hl _ _ Hb).
    + apply (getTakenPredicate_live _ _ _ Hl _ _ Hb).
    + apply (getThreadId_live _ _ _ Hl _).
    + apply (isMultipleBranches_live _ _ _ Hl _).
  - intros e Hl He Hutf Hname. each_getter Hin; try discriminate Hname.
    rewrite (getComment_live _ _ _ Hl _).
    destruct (Py_BuildValue_s_not_utf8 _ Hutf) as [msg ->]. eauto.
  - intros e x Hl Hthrow.
    each_getter Hin;
      destruct Hthrow as [[Hn Hx]|[[Hn Hx]|[Hn Hx]]]; try discriminate Hn.
    + unfold PathConstraint_getSourceAddress. run_binding. rewrite Hl, Hx. simpl.
      rewrite what_cstring. reflexivity.
    + unfold PathConstraint_getTakenAddress. run_binding. rewrite Hl, Hx. simpl.
      rewrite what_cstring. reflexivity.
    + unfold PathConstraint_getTakenPredicate. run_binding. rewrite Hl, Hx. simpl.
      rewrite what_cstring. reflexivity.
  - intros e exc msg Hl Hfail.
    each_getter Hin.
    + rewrite (getBranchConstraints_live _ _ _ Hl _) in Hfail. discriminate.
    + rewrite (getComment_live _ _ _ Hl _) in Hfail. simpl in Hfail.
      unfold Py_BuildValue_s in Hfail.
      destruct (is_utf8 (cstring (comment e))) eqn:Hutf; [discriminate|].
      injection Hfail as <- _. left. auto.
    + right. unfold PathConstraint_getSourceAddress in Hfail. run_binding_in Hfail.
      rewrite Hl in Hfail. unfold getSourceAddress in *.
      destruct (fromTaken sourceAddress e) as [v|x] eqn:Hg; [discriminate|].
      simpl in Hfail. injection Hfail as <- <-.
      split; [reflexivity|]. split; [exists x; apply what_cstring|].
      intros He. destruct (fromTaken_ok sourceAddress e He) as (b & Hb & _). congruence.
    + right. unfold PathConstraint_getTakenAddress in Hfail. run_binding_in Hfail.
      rewrite Hl in Hfail. unfold getTakenAddress in *.
      destruct (fromTaken destinationAddress e) as [v|x] eqn:Hg; [discriminate|].
      simpl in Hfail. injection Hfail as <- <-.
      split; [reflexivity|]. split; [exists x; apply what_cstring|].
      intros He. destruct (fromTaken_ok destinationAddress e He) as (b & Hb & _). congruence.
    + right. unfold PathConstraint_getTakenPredicate in Hfail. run_binding_in Hfail.
      rewrite Hl in Hfail. unfold getTakenPredicate in *.
      destruct (fromTaken predicate e) as [v|x] eqn:Hg; [discriminate|].
      simpl in Hfail. injection Hfail as <- <-.
      split; [reflexivity|]. split; [exists x; apply what_cstring|].
      intros He. destruct (fromTaken_ok predicate e He) as (b & Hb & _). congruence.
    + rewrite (getThreadId_live _ _ _ Hl _) in Hfail. discriminate.
    + rewrite (isMultipleBranches_live _ _ _ Hl _) in Hfail. discriminate.
  - intros Hl. apply (getter_dead name f self noarg σ Hin Hl).
Qed.

Lemma getters_pure_total_on_utf8_comments_witness :
  let e := mkPathConstraint [mkBranch true 4096 4100 (Opaque 1)] 7 "loop exit" in
  exists v,
    PathConstraint_getComment (mkObject 1%positive) Py_None {[ 1%positive := e ]}
    = (PyReturn v, {[ 1%positive := e ]}).
Proof.
  intros e.
  destruct (getters_pure_total_on_utf8_comments "getComment" PathConstraint_getComment
              (mkObject 1%positive) Py_None {[ 1%positive := e ]})
    as (_ & _ & Hlive & _).
  - unfold getters, PathConstraint_callbacks.
    apply elem_of_cons. right. apply elem_of_cons. left. reflexivity.
  - apply (Hlive e).
    + apply lookup_singleton_eq.
    + reflexivity.
    + left. reflexivity.
Defined.

(** C8 as stated fails: a comment with an embedded NUL character does not
    come back from [getComment] as it was set; and for a text that has no
    UTF-8 form [setComment] does not come back at all. *)
Lemma setComment_getComment_nul :
  let text := String "a" (String Ascii.zero (String "b" EmptyString)) in
  let e := mkPathConstraint [mkBranch true 4096 4100 (Opaque 1)] 0 EmptyString in
  let self := mkObject 1%positive in
  let σ : Heap := {[ 1%positive := e ]} in
  fst (PathConstraint_getComment self Py_None
         (snd (PathConstraint_setComment self (PyStr text) σ)))
  = PyReturn (PyStr "a") /\
  fst (PathConstraint_getComment self Py_None
         (snd (PathConstraint_setComment self (PyStr text) σ)))
  <> PyReturn (PyStr text) /\
  PathConstraint_setComment self (PyStr_surrogates [55296%N]) σ = (PyAbort, σ).
Proof.
  intros text e self σ.
  rewrite (setComment_live self σ e) by apply lookup_singleton_eq. simpl snd.
  rewrite (getComment_live self _ (setComment (cstring text) e))
    by apply lookup_insert_eq.
  split; [reflexivity|]. split; [discriminate | reflexivity].
Qed.

(** C8 (amended). Calling a getter a second time returns the same result and
    leaves the same heap.  [setComment] with a string [text] that has a
    UTF-8 form, followed by [getComment], returns [text] read as a C string,
    that is [text] up to its first NUL character, and exactly [text] when it
    holds none; after two calls of [setComment] the text of the second one
    is returned.  Among the operations of the binding only [setComment]
    changes an entry: no other method changes the heap, making a wrapper
    leaves every entry there was as it was, and destroying one changes the
    value of no entry. *)
Theorem getters_idempotent_comment_as_cstring
    (name : string) (f : PyCFunction) (self : PathConstraint_Object) (noarg arg : PyObject)
    (σ : Heap) (e : PathConstraint) (text text' : string) :
  ((name, f) ∈ getters -> f self noarg (snd (f self noarg σ)) = f self noarg σ) /\
  (σ !! pc self = Some e -> is_utf8 text = true -> is_utf8 text' = true ->
     let σ1 := snd (PathConstraint_setComment self (PyStr text) σ) in
     let σ2 := snd (PathConstraint_setComment self (PyStr text') σ1) in
     fst (PathConstraint_getComment self noarg σ1) = PyReturn (PyStr (cstring text)) /\
     (has_nul text = false ->
        fst (PathConstraint_getComment self noarg σ1) = PyReturn (PyStr text)) /\
     fst (PathConstraint_getComment self noarg σ2) = PyReturn (PyStr (cstring text'))) /\
  (((name, f) ∈ PathConstraint_callbacks -> snd (f self arg σ) <> σ ->
      name = "setComment"%string) /\
   (forall allocated src l e0, σ !! l = Some e0 ->
      snd (PyPathConstraint allocated src σ) !! l = Some e0) /\
   (forall l e0 e1, σ !! l = Some e0 ->
      PathConstraint_dealloc self σ !! l = Some e1 -> e1 = e0)).
Proof.
  split; [|split; [|split; [|split]]].
  - intros Hin. rewrite (getter_pure name f self noarg σ Hin). reflexivity.
  - intros Hl Hutf Hutf' σ1 σ2. subst σ1 σ2.
    apply is_utf8_cstring in Hutf. apply is_utf8_cstring in Hutf'.
    rewrite (setComment_live self σ e Hl text). simpl snd.
    rewrite (setComment_live self _ (setComment (cstring text) e))
      by apply lookup_insert_eq.
    simpl snd.
    rewrite (getComment_live self _ (setComment (cstring text) e))
      by apply lookup_insert_eq.
    rewrite (getComment_live self _
               (setComment (cstring text') (setComment (cstring text) e)))
      by apply lookup_insert_eq.
    simpl comment.
    rewrite !Py_BuildValue_s_utf8 by (rewrite cstring_idem; assumption).
    simpl. rewrite !cstring_idem. repeat split.
    intros Hnul. rewrite (cstring_no_nul _ Hnul). reflexivity.
  - intros Hin Hchanged. destruct (callbacks_split name f Hin) as [Hget|Hset].
    + exfalso. apply Hchanged. apply (getter_pure name f self arg σ Hget).
    + exact Hset.
  - intros allocated src l e0 Hl0. unfold PyPathConstraint.
    destruct allocated; simpl; [|exact Hl0].
    destruct (PyPathConstraint_fresh true src σ _ _ eq_refl) as [Hfree _].
    simpl in Hfree. rewrite lookup_insert_ne; [exact Hl0|].
    intros Heq. subst l. unfold loc in *. congruence.
  - intros l e0 e1 Hl0 Hl1. unfold PathConstraint_dealloc in Hl1.
    destruct (decide (PyPathConstraint_AsPathConstraint self = l)) as [<-|Hne].
    + rewrite lookup_delete_eq in Hl1. discriminate.
    + rewrite lookup_delete_ne in Hl1 by exact Hne. congruence.
Qed.

Lemma getters_idempotent_comment_as_cstring_witness :
  let e := mkPathConstraint [mkBranch true 4096 4100 (Opaque 1)] 0 EmptyString in
  let self := mkObject 1%positive in
  let σ : Heap := {[ 1%positive := e ]} in
  fst (PathConstraint_getComment self Py_None
         (snd (PathConstraint_setComment self (PyStr "loop exit") σ)))
  = PyReturn (PyStr "loop exit").
Proof.
  intros e self σ.
  apply (getters_idempotent_comment_as_cstring "getComment" PathConstraint_getComment
           self Py_None Py_None σ e "loop exit" EmptyString).
  - apply lookup_singleton_eq.
  - reflexivity.
  - reflexivity.
  - reflexivity.
Defined.

(** C9. The wrapper made by [PyPathConstraint] points to a copy of the entry
    at a location that was free: it differs from the location of the
    engine's entry, it holds the entry's value, and after [setComment]
    through the wrapper every object that existed before, the engine's entry
    with its branches, thread id and comment among them, is as it was; only
    the wrapper's copy carries the new comment. *)
Theorem wrapper_owns_a_copy
    (allocated : bool) (σ σ1 : Heap) (l : loc) (e : PathConstraint)
    (self : PathConstraint_Object) (arg : PyObject) :
  σ !! l = Some e ->
  PyPathConstraint allocated e σ = (Some self, σ1) ->
  let σ2 := snd (PathConstraint_setComment self arg σ1) in
  pc self <> l /\
  σ1 !! pc self = Some e /\
  σ2 !! l = Some e /\
  (forall l', l' <> pc self -> σ2 !! l' = σ !! l') /\
  (forall text, arg = PyStr text ->
     σ2 !! pc self = Some (mkPathConstraint (branches e) (threadId e) (cstring text))).
Proof.
  intros Hl Hnew σ2.
  destruct (PyPathConstraint_fresh _ _ _ _ _ Hnew) as [Hfree ->].
  assert (pc self <> l) as Hne by congruence.
  assert (forall l', l' <> pc self -> σ2 !! l' = σ !! l') as Hframe.
  { intros l' Hl'. subst σ2. destruct (PyStr_Check arg) eqn:Hs.
    - destruct arg; try discriminate.
      + rewrite (setComment_live self _ e) by apply lookup_insert_eq. simpl snd.
        rewrite !lookup_insert_ne by congruence. reflexivity.
      + rewrite setComment_surrogates. simpl snd.
        rewrite lookup_insert_ne by congruence. reflexivity.
    - rewrite (setComment_not_str self arg _ Hs). simpl snd.
      rewrite lookup_insert_ne by congruence. reflexivity. }
  repeat split.
  - exact Hne.
  - apply lookup_insert_eq.
  - rewrite Hframe by congruence. exact Hl.
  - exact Hframe.
  - intros text ->. subst σ2.
    rewrite (setComment_live self _ e) by apply lookup_insert_eq. simpl snd.
    rewrite lookup_insert_eq. reflexivity.
Qed.

Lemma wrapper_owns_a_copy_witness :
  let e := mkPathConstraint [mkBranch true 4096 4100 (Opaque 1)] 3 "original" in
  let σ : Heap := {[ 1%positive := e ]} in
  let self := mkObject (fresh (dom σ)) in
  let σ1 : Heap := <[pc self := e]> σ in
  PyPathConstraint true e σ = (Some self, σ1) /\
  snd (PathConstraint_setComment self (PyStr "edited") σ1) !! 1%positive = Some e.
Proof.
  intros e σ self σ1.
  assert (PyPathConstraint true e σ = (Some self, σ1)) as Hnew by reflexivity.
  split; [exact Hnew|].
  destruct (wrapper_owns_a_copy true σ σ1 1%positive e self (PyStr "edited"))
    as (_ & _ & Hsame & _).
  - apply lookup_singleton_eq.
  - exact Hnew.
  - exact Hsame.
Defined.

(** C10 as stated fails: with a string argument that holds a NUL character
    the call succeeds and the comment does not become that string; and with
    a string that has no UTF-8 form the call neither stores the string nor
    raises an error: it does not come back. *)
Lemma setComment_atomic_nul :
  let text := String "a" (String Ascii.zero (String "b" EmptyString)) in
  let e := mkPathConstraint [mkBranch true 4096 4100 (Opaque 1)] 0 "before" in
  let self := mkObject 1%positive in
  let σ : Heap := {[ 1%positive := e ]} in
  let r := fst (PathConstraint_setComment self (PyStr text) σ) in
  let σ' := snd (PathConstraint_setComment self (PyStr text) σ) in
  ~ ((r = PyReturn Py_None /\
      (comment <$> σ' !! pc self = Some text \/
       fst (PathConstraint_getComment self Py_None σ') = PyReturn (PyStr text))) \/
     (exists msg, r = PyRaised PyExc_TypeError msg /\
                  comment <$> σ' !! pc self = Some (comment e))) /\
  (PyStr_Check (PyStr_surrogates [55296%N]) = true /\
   fst (PathConstraint_setComment self (PyStr_surrogates [55296%N]) σ) <> PyReturn Py_None /\
   forall exc msg,
     fst (PathConstraint_setComment self (PyStr_surrogates [55296%N]) σ)
     <> PyRaised exc msg).
Proof.
  intros text e self σ r σ'. subst r σ'. split.
  - rewrite (setComment_live self σ e) by apply lookup_singleton_eq.
    simpl fst. simpl snd.
    rewrite (getComment_live self _ (setComment (cstring text) e))
      by apply lookup_insert_eq.
    rewrite lookup_insert_eq.
    intros [[_ [Hc|Hc]]|(msg & Hr & _)]; discriminate.
  - rewrite setComment_surrogates. split; [reflexivity|].
    split; [discriminate | intros exc msg; discriminate].
Qed.

(** C10 (amended). [setComment] with an argument that is not a string fails
    with a Python [TypeError] and leaves the heap, and so the comment, as it
    was.  With a string that has a UTF-8 form the call returns [None] and
    the comment becomes that string read as a C string (the string up to
    its first NUL character, the whole string when it holds none), the
    branch records and the thread id staying as they were.  Nothing is said
    of a string that has no UTF-8 form; every argument is of one of these
    three kinds. *)
Theorem setComment_type_checked
    (self : PathConstraint_Object) (arg : PyObject) (σ : Heap) (e : PathConstraint) :
  σ !! pc self = Some e ->
  let r := fst (PathConstraint_setComment self arg σ) in
  let σ' := snd (PathConstraint_setComment self arg σ) in
  (PyStr_Check arg = false ->
     (exists msg, r = PyRaised PyExc_TypeError msg) /\ σ' = σ /\
     comment <$> σ' !! pc self = Some (comment e)) /\
  (forall text, arg = PyStr text ->
     r = PyReturn Py_None /\
     σ' = <[pc self := mkPathConstraint (branches e) (threadId e) (cstring text)]> σ /\
     comment <$> σ' !! pc self = Some (cstring text) /\
     (has_nul text = false -> comment <$> σ' !! pc self = Some text)) /\
  (PyStr_Check arg = false \/ (exists text, arg = PyStr text) \/
   (exists code_points, arg = PyStr_surrogates code_points)).
Proof.
  intros Hl r σ'. subst r σ'. split; [|split].
  - intros Hs. rewrite (setComment_not_str self arg σ Hs). simpl.
    rewrite Hl. eauto.
  - intros text ->. rewrite (setComment_live self σ e Hl text). simpl fst. simpl snd.
    rewrite lookup_insert_eq. simpl.
    repeat split. intros Hnul. rewrite (cstring_no_nul _ Hnul). reflexivity.
  - destruct arg; simpl; eauto.
Qed.

Lemma setComment_type_checked_witness :
  let e := mkPathConstraint [mkBranch true 4096 4100 (Opaque 1)] 0 "before" in
  let self := mkObject 1%positive in
  let σ : Heap := {[ 1%positive := e ]} in
  (exists msg, fst (PathConstraint_setComment self (PyLong 3) σ)
               = PyRaised PyExc_TypeError msg) /\
  snd (PathConstraint_setComment self (PyLong 3) σ) = σ /\
  comment <$> snd (PathConstraint_setComment self (PyLong 3) σ) !! pc self = Some "before".
Proof.
  intros e self σ.
  apply (setComment_type_checked self (PyLong 3) σ e).
  - apply lookup_singleton_eq.
  - reflexivity.
Defined.

(** * Further properties of the binding *)

(** ** What a method does to the heap *)

Lemma callbacks_cases (name : string) (f : PyCFunction) :
  (name, f) ∈ PathConstraint_callbacks ->
  (name, f) ∈ getters \/ f = PathConstraint_setComment.
Proof.
  intros Hin. unfold PathConstraint_callbacks in Hin.
  repeat (apply elem_of_cons in Hin as [Hin|Hin];
          [injection Hin as -> ->;
           first [ solve [ left; unfold getters, PathConstraint_callbacks;
                           repeat first [ apply elem_of_cons; left; reflexivity
                                        | apply elem_of_cons; right ] ]
                 | right; reflexivity ]|]).
  inversion Hin.
Qed.

(** [setComment] either leaves the heap alone or rewrites the comment of the
    object of its wrapper. *)
Lemma setComment_heap (self : PathConstraint_Object) (arg : PyObject) (σ : Heap) :
  snd (PathConstraint_setComment self arg σ) = σ \/
  exists e text, σ !! pc self = Some e /\ arg = PyStr text /\
    snd (PathConstraint_setComment self arg σ)
    = <[pc self := setComment (cstring text) e]> σ.
Proof.
  destruct (PyStr_Check arg) eqn:Hs.
  - destruct arg; try discriminate.
    + destruct (σ !! pc self) as [e|] eqn:Hl.
      * right. exists e, s. rewrite (setComment_live self σ e Hl s). auto.
      * left. unfold PathConstraint_setComment. run_binding. simpl. rewrite Hl. reflexivity.
    + left. rewrite setComment_surrogates. reflexivity.
  - left. rewrite (setComment_not_str self arg σ Hs). reflexivity.
Qed.

Lemma callback_heap (name : string) (f : PyCFunction) (self : PathConstraint_Object)
    (arg : PyObject) (σ : Heap) :
  (name, f) ∈ PathConstraint_callbacks ->
  snd (f self arg σ) = σ \/
  exists e e', σ !! pc self = Some e /\ snd (f self arg σ) = <[pc self := e']> σ.
Proof.
  intros Hin. destruct (callbacks_cases name f Hin) as [Hget| ->].
  - left. apply (getter_pure name f self arg σ Hget).
  - destruct (setComment_heap self arg σ) as [Hsame|(e & text & Hl & _ & Hset)].
    + left. exact Hsame.
    + right. eauto.
Qed.

Lemma callback_frame (name : string) (f : PyCFunction) (self : PathConstraint_Object)
    (arg : PyObject) (σ : Heap) (l : loc) :
  (name, f) ∈ PathConstraint_callbacks -> l <> pc self ->
  snd (f self arg σ) !! l = σ !! l.
Proof.
  intros Hin Hne. destruct (callback_heap name f self arg σ Hin) as [->|(e & e' & _ & ->)].
  - reflexivity.
  - apply lookup_insert_ne. congruence.
Qed.

Lemma callback_delete (name : string) (f : PyCFunction) (self : PathConstraint_Object)
    (arg : PyObject) (σ : Heap) :
  (name, f) ∈ PathConstraint_callbacks ->
  delete (pc self) (snd (f self arg σ)) = delete (pc self) σ.
Proof.
  intros Hin. destruct (callback_heap name f self arg σ Hin) as [->|(e & e' & _ & ->)].
  - reflexivity.
  - apply delete_insert_eq.
Qed.

Lemma run_methods_delete (self : PathConstraint_Object)
    (calls : list (PyCFunction * PyObject)) (σ : Heap) :
  Forall (fun c => exists name, (name, fst c) ∈ PathConstraint_callbacks) calls ->
  delete (pc self) (run_methods self calls σ) = delete (pc self) σ.
Proof.
  intros Hcalls. revert σ. induction Hcalls as [|[f arg] calls [name Hin] _ IH]; intros σ.
  - reflexivity.
  - unfold run_methods in *. simpl. rewrite IH. apply (callback_delete name f self arg σ Hin).
Qed.

(** The result of a method depends on the heap through the object of its
    wrapper only. *)
Lemma callback_result_local (name : string) (f : PyCFunction) (self : PathConstraint_Object)
    (arg : PyObject) (σ σ' : Heap) :
  (name, f) ∈ PathConstraint_callbacks -> σ !! pc self = σ' !! pc self ->
  fst (f self arg σ) = fst (f self arg σ').
Proof.
  intros Hin Heq. destruct (callbacks_cases name f Hin) as [Hget| ->].
  - destruct (σ !! pc self) as [e|] eqn:Hl; symmetry in Heq.
    + each_getter Hget.
      * rewrite !(getBranchConstraints_live self _ e) by assumption. reflexivity.
      * rewrite !(getComment_live self _ e) by assumption. reflexivity.
      * unfold PathConstraint_getSourceAddress. run_binding. rewrite Hl, Heq.
        destruct (getSourceAddress e); reflexivity.
      * unfold PathConstraint_getTakenAddress. run_binding. rewrite Hl, Heq.
        destruct (getTakenAddress e); reflexivity.
      * unfold PathConstraint_getTakenPredicate. run_binding. rewrite Hl, Heq.
        destruct (getTakenPredicate e); reflexivity.
      * rewrite !(getThreadId_live self _ e) by assumption. reflexivity.
      * rewrite !(isMultipleBranches_live self _ e) by assumption. reflexivity.
    + rewrite (getter_dead name f self arg σ Hget Hl), (getter_dead name f self arg σ' Hget Heq).
      reflexivity.
  - destruct (PyStr_Check arg) eqn:Hs.
    + destruct arg; try discriminate.
      * destruct (σ !! pc self) as [e|] eqn:Hl; symmetry in Heq.
        -- rewrite (setComment_live self σ e Hl), (setComment_live self σ' e Heq).
           reflexivity.
        -- unfold PathConstraint_setComment. run_binding. simpl. rewrite Hl, Heq.
           reflexivity.
      * rewrite !setComment_surrogates. reflexivity.
    + rewrite !(setComment_not_str self arg _ Hs). reflexivity.
Qed.

(** X1. A wrapper's life leaves no trace in the heap: after [PyPathConstraint]
    has made the wrapper, any run of calls of its methods followed by
    [PathConstraint_dealloc] gives back exactly the heap there was before
    the wrapper, the engine's own entries included. *)
Theorem wrapper_life_restores_heap
    (allocated : bool) (e : PathConstraint) (σ σ1 : Heap) (self : PathConstraint_Object)
    (calls : list (PyCFunction * PyObject)) :
  PyPathConstraint allocated e σ = (Some self, σ1) ->
  Forall (fun c => exists name, (name, fst c) ∈ PathConstraint_callbacks) calls ->
  PathConstraint_dealloc self (run_methods self calls σ1) = σ.
Proof.
  intros Hnew Hcalls. destruct (PyPathConstraint_fresh _ _ _ _ _ Hnew) as [Hfree ->].
  unfold PathConstraint_dealloc, PyPathConstraint_AsPathConstraint.
  rewrite (run_methods_delete self calls _ Hcalls), delete_insert_eq.
  apply delete_id. exact Hfree.
Qed.

Lemma wrapper_life_restores_heap_witness :
  let e := mkPathConstraint [mkBranch true 4096 4100 (Opaque 1)] 3 "original" in
  let σ : Heap := {[ 1%positive := e ]} in
  let self := mkObject (fresh (dom σ)) in
  let calls := [(PathConstraint_setComment, PyStr "edited");
                (PathConstraint_getComment, Py_None)] in
  PathConstraint_dealloc self (run_methods self calls (<[pc self := e]> σ)) = σ.
Proof.
  intros e σ self calls.
  apply (wrapper_life_restores_heap true e σ (<[pc self := e]> σ) self calls).
  - reflexivity.
  - repeat constructor.
    + exists "setComment"%string. unfold PathConstraint_callbacks. simpl.
      do 7 (apply elem_of_cons; right). apply elem_of_cons. left. reflexivity.
    + exists "getComment"%string. unfold PathConstraint_callbacks. simpl.
      apply elem_of_cons. right. apply elem_of_cons. left. reflexivity.
Defined.

(** X2. Two wrappers never share their native object, even when made from
    the same entry: what a method called through one of them returns is not
    changed by any method called through the other. *)
Theorem wrappers_are_independent
    (a1 a2 : bool) (e1 e2 : PathConstraint) (σ σ1 σ2 : Heap)
    (w1 w2 : PathConstraint_Object)
    (name gname : string) (f g : PyCFunction) (arg arg' : PyObject) :
  PyPathConstraint a1 e1 σ = (Some w1, σ1) ->
  PyPathConstraint a2 e2 σ1 = (Some w2, σ2) ->
  (name, f) ∈ PathConstraint_callbacks ->
  (gname, g) ∈ PathConstraint_callbacks ->
  pc w1 <> pc w2 /\
  fst (g w2 arg' (snd (f w1 arg σ2))) = fst (g w2 arg' σ2) /\
  fst (g w1 arg' (snd (f w2 arg σ2))) = fst (g w1 arg' σ2).
Proof.
  intros H1 H2 Hf Hg.
  destruct (PyPathConstraint_fresh _ _ _ _ _ H1) as [Hfree1 ->].
  destruct (PyPathConstraint_fresh _ _ _ _ _ H2) as [Hfree2 ->].
  assert (pc w1 <> pc w2) as Hne.
  { intros Heq. rewrite <- Heq, lookup_insert_eq in Hfree2. discriminate. }
  split; [exact Hne|]. split.
  - apply (callback_result_local gname g w2 arg' _ _ Hg).
    apply (callback_frame name f w1 arg _ (pc w2) Hf). congruence.
  - apply (callback_result_local gname g w1 arg' _ _ Hg).
    apply (callback_frame name f w2 arg _ (pc w1) Hf). congruence.
Qed.

Lemma wrappers_are_independent_witness :
  let e := mkPathConstraint [mkBranch true 4096 4100 (Opaque 1)] 3 "original" in
  let σ : Heap := {[ 1%positive := e ]} in
  let w1 := mkObject (fresh (dom σ)) in
  let σ1 : Heap := <[pc w1 := e]> σ in
  let w2 := mkObject (fresh (dom σ1)) in
  let σ2 : Heap := <[pc w2 := e]> σ1 in
  fst (PathConstraint_getComment w2 Py_None
         (snd (PathConstraint_setComment w1 (PyStr "edited") σ2)))
  = fst (PathConstraint_getComment w2 Py_None σ2).
Proof.
  intros e σ w1 σ1 w2 σ2.
  apply (wrappers_are_independent true true e e σ σ1 σ2 w1 w2
           "setComment" "getComment" PathConstraint_setComment PathConstraint_getComment
           (PyStr "edited") Py_None).
  - reflexivity.
  - reflexivity.
  - unfold PathConstraint_callbacks.
    do 7 (apply elem_of_cons; right). apply elem_of_cons. left. reflexivity.
  - unfold PathConstraint_callbacks.
    apply elem_of_cons. right. apply elem_of_cons. left. reflexivity.
Defined.

(** X3. A wrapper is a snapshot of the entry it was made from: whatever
    happens afterwards to the engine's own entry (it is rewritten, or
    destroyed) and to any other object, as long as the wrapper's object is
    untouched every method called through the wrapper returns what it
    returned right after the wrapper was made. *)
Theorem wrapper_is_a_snapshot
    (allocated : bool) (e : PathConstraint) (σ σ1 σ' : Heap) (l : loc)
    (self : PathConstraint_Object) (name : string) (f : PyCFunction) (arg : PyObject) :
  σ !! l = Some e ->
  PyPathConstraint allocated e σ = (Some self, σ1) ->
  (name, f) ∈ PathConstraint_callbacks ->
  (forall k, k <> l -> σ' !! k = σ1 !! k) ->
  fst (f self arg σ') = fst (f self arg σ1).
Proof.
  intros Hl Hnew Hin Hrest.
  destruct (PyPathConstraint_fresh _ _ _ _ _ Hnew) as [Hfree ->].
  apply (callback_result_local name f self arg _ _ Hin).
  apply Hrest. congruence.
Qed.

Lemma wrapper_is_a_snapshot_witness :
  let e := mkPathConstraint [mkBranch true 4096 4100 (Opaque 1)] 3 "original" in
  let σ : Heap := {[ 1%positive := e ]} in
  let self := mkObject (fresh (dom σ)) in
  let σ1 : Heap := <[pc self := e]> σ in
  fst (PathConstraint_getComment self Py_None (delete 1%positive σ1))
  = fst (PathConstraint_getComment self Py_None σ1).
Proof.
  intros e σ self σ1.
  apply (wrapper_is_a_snapshot true e σ σ1 (delete 1%positive σ1) 1%positive self
           "getComment" PathConstraint_getComment Py_None).
  - reflexivity.
  - reflexivity.
  - unfold PathConstraint_callbacks.
    apply elem_of_cons. right. apply elem_of_cons. left. reflexivity.
  - intros k Hk. apply lookup_delete_ne. congruence.
Defined.

(** ** Comments through the binding *)

Lemma cstring_has_no_nul (s : string) : has_nul (cstring s) = false.
Proof.
  induction s as [|c s IH]; simpl; [reflexivity|].
  destruct (Ascii.eqb c zero) eqn:Hc; simpl; [reflexivity|].
  rewrite Hc, IH. reflexivity.
Qed.

(** X4. A comment stored by [setComment] never holds a NUL character, and
    when the string set was well-formed UTF-8 [getComment] then returns the
    stored comment itself.  Whenever [getComment] returns a text, writing
    that text back is harmless: [getComment] returns the same text
    afterwards, and when the stored comment held no NUL character the heap
    is exactly as before. *)
Theorem comment_written_is_nul_free
    (self : PathConstraint_Object) (noarg : PyObject) (σ : Heap) (e : PathConstraint)
    (text c : string) :
  σ !! pc self = Some e ->
  (exists e',
     snd (PathConstraint_setComment self (PyStr text) σ) !! pc self = Some e' /\
     has_nul (comment e') = false /\
     (is_utf8 text = true ->
      fst (PathConstraint_getComment self noarg
             (snd (PathConstraint_setComment self (PyStr text) σ)))
      = PyReturn (PyStr (comment e')))) /\
  (PathConstraint_getComment self noarg σ = (PyReturn (PyStr c), σ) ->
     fst (PathConstraint_getComment self noarg
            (snd (PathConstraint_setComment self (PyStr c) σ)))
     = PyReturn (PyStr c) /\
     (has_nul (comment e) = false ->
        PathConstraint_setComment self (PyStr c) σ = (PyReturn Py_None, σ))).
Proof.
  intros Hl. split.
  - exists (setComment (cstring text) e).
    rewrite (setComment_live self σ e Hl text). simpl snd.
    rewrite lookup_insert_eq.
    split; [reflexivity|]. split; [apply cstring_has_no_nul|].
    intros Hutf. apply is_utf8_cstring in Hutf.
    rewrite (getComment_live self _ (setComment (cstring text) e))
      by apply lookup_insert_eq.
    simpl comment. rewrite Py_BuildValue_s_utf8 by (rewrite cstring_idem; exact Hutf).
    simpl. rewrite cstring_idem. reflexivity.
  - rewrite (getComment_live self σ e Hl). intros Hget.
    injection Hget as Hget. destruct (Py_BuildValue_s_inv _ _ Hget) as [-> Hutf].
    split.
    + rewrite (setComment_live self σ e Hl). simpl snd.
      rewrite (getComment_live self _ (setComment (cstring (cstring (comment e))) e))
        by apply lookup_insert_eq.
      simpl comment.
      rewrite Py_BuildValue_s_utf8 by (rewrite !cstring_idem; exact Hutf).
      rewrite !cstring_idem. reflexivity.
    + intros Hnul. rewrite (setComment_live self σ e Hl).
      rewrite cstring_idem, (cstring_no_nul _ Hnul). f_equal.
      apply insert_id. rewrite Hl. f_equal. destruct e; reflexivity.
Qed.

Lemma comment_written_is_nul_free_witness :
  let e := mkPathConstraint [mkBranch true 4096 4100 (Opaque 1)] 0 "loop exit" in
  let self := mkObject 1%positive in
  let σ : Heap := {[ 1%positive := e ]} in
  PathConstraint_getComment self Py_None σ = (PyReturn (PyStr "loop exit"), σ) /\
  PathConstraint_setComment self (PyStr "loop exit") σ = (PyReturn Py_None, σ).
Proof.
  intros e self σ.
  assert (PathConstraint_getComment self Py_None σ = (PyReturn (PyStr "loop exit"), σ))
    as Hget by reflexivity.
  split; [exact Hget|].
  destruct (comment_written_is_nul_free self Py_None σ e EmptyString "loop exit")
    as (_ & Hback).
  - apply lookup_singleton_eq.
  - apply (Hback Hget). reflexivity.
Defined.

(** ** The list of branch dictionaries *)

Lemma branch_dict_lookups (b : BranchRecord) :
  PyDict_GetItemString (branch_dict b) "isTaken" = Some (PyBool (isTaken b)) /\
  PyDict_GetItemString (branch_dict b) "srcAddr" = Some (PyLong (uint64 (sourceAddress b))) /\
  PyDict_GetItemString (branch_dict b) "dstAddr"
  = Some (PyLong (uint64 (destinationAddress b))) /\
  PyDict_GetItemString (branch_dict b) "constraint" = Some (AstNode_Object (predicate b)).
Proof. rewrite branch_dict_items. repeat split. Qed.

Lemma uint64_range (v : Z) : in_u64 (uint64 v).
Proof. unfold in_u64, uint64. apply Z.mod_pos_bound. reflexivity. Qed.

(** X5. On any live entry, the invariant holding or not,
    [getBranchConstraints] returns a list with one dictionary per branch
    record and no empty slot; an entry without records gives the empty
    list.  The dictionary at an index has exactly the four keys [isTaken],
    [srcAddr], [dstAddr] and [constraint], in this order, read from the
    record at the same index, the addresses as unsigned 64-bit values. *)
Theorem getBranchConstraints_shape
    (self : PathConstraint_Object) (noarg : PyObject) (σ : Heap) (e : PathConstraint) :
  σ !! pc self = Some e ->
  exists items,
    PathConstraint_getBranchConstraints self noarg σ = (PyReturn (PyList items), σ) /\
    length items = length (branches e) /\
    (PyNULL ∉ items) /\
    (branches e = [] -> items = []) /\
    (forall i d, items !! i = Some d ->
       exists b src dst,
         branches e !! i = Some b /\
         in_u64 src /\ in_u64 dst /\
         (in_u64 (sourceAddress b) -> src = sourceAddress b) /\
         (in_u64 (destinationAddress b) -> dst = destinationAddress b) /\
         d = PyDict [ ("isTaken"%string, PyBool (isTaken b));
                      ("srcAddr"%string, PyLong src);
                      ("dstAddr"%string, PyLong dst);
                      ("constraint"%string, AstNode_Object (predicate b)) ]).
Proof.
  intros Hl. exists (map branch_dict (branches e)).
  split; [apply (getBranchConstraints_live self σ e Hl)|].
  split; [apply length_map|]. split; [|split].
  - intros Hin. change (map branch_dict (branches e)) with (branch_dict <$> branches e) in Hin.
    apply list_elem_of_fmap in Hin as (b & Hb & _).
    rewrite branch_dict_items in Hb. discriminate.
  - intros ->. reflexivity.
  - intros i d Hi. change (map branch_dict (branches e)) with (branch_dict <$> branches e) in Hi.
    rewrite list_lookup_fmap in Hi. destruct (branches e !! i) as [b|]; [|discriminate].
    simpl in Hi. injection Hi as <-.
    exists b, (uint64 (sourceAddress b)), (uint64 (destinationAddress b)).
    repeat split; try apply uint64_range; try apply uint64_in_range; try assumption.
    apply branch_dict_items.
Qed.

Lemma getBranchConstraints_shape_witness :
  let e := mkPathConstraint [] 0 EmptyString in
  let σ : Heap := {[ 1%positive := e ]} in
  PathConstraint_getBranchConstraints (mkObject 1%positive) Py_None σ
  = (PyReturn (PyList []), σ).
Proof.
  intros e σ.
  destruct (getBranchConstraints_shape (mkObject 1%positive) Py_None σ e)
    as (items & Hcall & _ & _ & Hempty & _).
  - apply lookup_singleton_eq.
  - rewrite Hcall, (Hempty eq_refl). reflexivity.
Defined.

(** X6. On a live entry that satisfies the entry invariant, exactly one of
    the dictionaries that [getBranchConstraints] returns has [isTaken] set,
    and its [srcAddr], [dstAddr] and [constraint] are the objects that
    [getSourceAddress], [getTakenAddress] and [getTakenPredicate] return. *)
Theorem taken_dictionary_agrees_with_getters
    (self : PathConstraint_Object) (noarg : PyObject) (σ : Heap) (e : PathConstraint) :
  σ !! pc self = Some e -> entry_ok e ->
  exists items i d src dst node,
    PathConstraint_getBranchConstraints self noarg σ = (PyReturn (PyList items), σ) /\
    items !! i = Some d /\
    PyDict_GetItemString d "isTaken" = Some Py_True /\
    (forall j d', items !! j = Some d' ->
       PyDict_GetItemString d' "isTaken" = Some Py_True -> j = i) /\
    PyDict_GetItemString d "srcAddr" = Some src /\
    PathConstraint_getSourceAddress self noarg σ = (PyReturn src, σ) /\
    PyDict_GetItemString d "dstAddr" = Some dst /\
    PathConstraint_getTakenAddress self noarg σ = (PyReturn dst, σ) /\
    PyDict_GetItemString d "constraint" = Some node /\
    PathConstraint_getTakenPredicate self noarg σ = (PyReturn node, σ).
Proof.
  intros Hl He.
  destruct (countTaken_one_exactly _ He) as (i & (b & Hi & Hb) & Huniq).
  assert (takenBranch (branches e) = Some b) as Ht.
  { apply takenBranch_unique; [exact He | apply list_elem_of_lookup; eauto | exact Hb]. }
  destruct (branch_dict_lookups b) as (Htaken & Hsrc & Hdst & Hnode).
  exists (map branch_dict (branches e)), i, (branch_dict b),
    (PyLong (uint64 (sourceAddress b))), (PyLong (uint64 (destinationAddress b))),
    (AstNode_Object (predicate b)).
  split; [apply (getBranchConstraints_live self σ e Hl)|].
  split. { change (map branch_dict (branches e)) with (branch_dict <$> branches e).
           rewrite list_lookup_fmap, Hi. reflexivity. }
  split; [rewrite Htaken, Hb; reflexivity|].
  split.
  { intros j d' Hj Hd'.
    change (map branch_dict (branches e)) with (branch_dict <$> branches e) in Hj.
    rewrite list_lookup_fmap in Hj. destruct (branches e !! j) as [b'|] eqn:Hb'; [|discriminate].
    simpl in Hj. injection Hj as <-.
    destruct (branch_dict_lookups b') as (Htaken' & _). rewrite Htaken' in Hd'.
    apply (Huniq j b' Hb'). unfold Py_True in Hd'. congruence. }
  split; [exact Hsrc|]. split; [apply (getSourceAddress_live self σ e Hl _ _ Ht)|].
  split; [exact Hdst|]. split; [apply (getTakenAddress_live self σ e Hl _ _ Ht)|].
  split; [exact Hnode|]. apply (getTakenPredicate_live self σ e Hl _ _ Ht).
Qed.

Lemma taken_dictionary_agrees_with_getters_witness :
  let e := mkPathConstraint
             [mkBranch false 4096 8192 (Opaque 1); mkBranch true 4096 4100 (Opaque 2)]
             (-1) EmptyString in
  let σ : Heap := {[ 1%positive := e ]} in
  exists items i d dst,
    PathConstraint_getBranchConstraints (mkObject 1%positive) Py_None σ
    = (PyReturn (PyList items), σ) /\
    items !! i = Some d /\
    PyDict_GetItemString d "dstAddr" = Some dst /\
    PathConstraint_getTakenAddress (mkObject 1%positive) Py_None σ = (PyReturn dst, σ).
Proof.
  intros e σ.
  destruct (taken_dictionary_agrees_with_getters (mkObject 1%positive) Py_None σ e)
    as (items & i & d & src & dst & node & Hcall & Hi & _ & _ & _ & _ & Hdst & Hget & _).
  - apply lookup_singleton_eq.
  - reflexivity.
  - exists items, i, d, dst. auto.
Defined.

(** ** What the methods never change *)

(** Through any run of method calls the object of the wrapper stays alive
    and keeps its branch records and its thread id. *)
Lemma run_methods_keeps_data (self : PathConstraint_Object)
    (calls : list (PyCFunction * PyObject)) :
  Forall (fun c => exists name, (name, fst c) ∈ PathConstraint_callbacks) calls ->
  forall (σ : Heap) (e : PathConstraint),
    σ !! pc self = Some e ->
    exists e', run_methods self calls σ !! pc self = Some e' /\
               branches e' = branches e /\ threadId e' = threadId e.
Proof.
  induction 1 as [|[f arg] calls [name Hin] _ IH]; intros σ e Hl.
  - exists e. auto.
  - unfold run_methods in *. simpl.
    destruct (callbacks_cases name f Hin) as [Hget| ->].
    + rewrite (getter_pure name f self arg σ Hget). apply (IH σ e Hl).
    + destruct (setComment_heap self arg σ) as [->|(e0 & text & Hl0 & _ & ->)].
      * apply (IH σ e Hl).
      * rewrite Hl in Hl0. injection Hl0 as <-.
        destruct (IH (<[pc self := setComment (cstring text) e]> σ)
                     (setComment (cstring text) e)) as (e' & He' & Hb & Ht).
        { apply lookup_insert_eq. }
        exists e'. auto.
Qed.

(** A getter other than [getComment] reads the branch records and the
    thread id only. *)
Lemma getter_reads_data (name : string) (f : PyCFunction) (self : PathConstraint_Object)
    (noarg : PyObject) (σ σ' : Heap) (e e' : PathConstraint) :
  (name, f) ∈ getters -> name <> "getComment"%string ->
  σ !! pc self = Some e -> σ' !! pc self = Some e' ->
  branches e' = branches e -> threadId e' = threadId e ->
  fst (f self noarg σ') = fst (f self noarg σ).
Proof.
  intros Hin Hname Hl Hl' Hb Ht. each_getter Hin.
  - rewrite (getBranchConstraints_live self σ e Hl), (getBranchConstraints_live self σ' e' Hl').
    simpl. rewrite Hb. reflexivity.
  - contradiction Hname. reflexivity.
  - unfold PathConstraint_getSourceAddress. run_binding. rewrite Hl, Hl'.
    unfold getSourceAddress, fromTaken. rewrite Hb.
    destruct (takenBranch (branches e)); reflexivity.
  - unfold PathConstraint_getTakenAddress. run_binding. rewrite Hl, Hl'.
    unfold getTakenAddress, fromTaken. rewrite Hb.
    destruct (takenBranch (branches e)); reflexivity.
  - unfold PathConstraint_getTakenPredicate. run_binding. rewrite Hl, Hl'.
    unfold getTakenPredicate, fromTaken. rewrite Hb.
    destruct (takenBranch (branches e)); reflexivity.
  - rewrite (getThreadId_live self σ e Hl), (getThreadId_live self σ' e' Hl').
    simpl. rewrite Ht. reflexivity.
  - rewrite (isMultipleBranches_live self σ e Hl), (isMultipleBranches_live self σ' e' Hl').
    simpl. unfold isMultipleBranches. rewrite Hb. reflexivity.
Qed.

(** X11. No method of the object changes what the getters of the branch
    records and of the thread id return: after any run of method calls
    through a wrapper, [setComment] included, every getter but [getComment]
    returns what it returned when the wrapper was made. *)
Theorem methods_keep_branches_and_thread
    (allocated : bool) (e : PathConstraint) (σ σ1 : Heap) (self : PathConstraint_Object)
    (calls : list (PyCFunction * PyObject))
    (name : string) (f : PyCFunction) (noarg : PyObject) :
  PyPathConstraint allocated e σ = (Some self, σ1) ->
  Forall (fun c => exists name, (name, fst c) ∈ PathConstraint_callbacks) calls ->
  (name, f) ∈ getters -> name <> "getComment"%string ->
  fst (f self noarg (run_methods self calls σ1)) = fst (f self noarg σ1).
Proof.
  intros Hnew Hcalls Hin Hname.
  destruct (PyPathConstraint_fresh _ _ _ _ _ Hnew) as [_ ->].
  destruct (run_methods_keeps_data self calls Hcalls (<[pc self := e]> σ) e)
    as (e' & Hl' & Hb & Ht); [apply lookup_insert_eq|].
  apply (getter_reads_data name f self noarg _ _ e e' Hin Hname);
    [apply lookup_insert_eq | exact Hl' | exact Hb | exact Ht].
Qed.

Lemma methods_keep_branches_and_thread_witness :
  let e := mkPathConstraint [mkBranch true 4096 4100 (Opaque 1)] 3 "original" in
  let σ : Heap := {[ 1%positive := e ]} in
  let self := mkObject (fresh (dom σ)) in
  let σ1 : Heap := <[pc self := e]> σ in
  let calls := [(PathConstraint_setComment, PyStr "edited")] in
  fst (PathConstraint_getTakenAddress self Py_None (run_methods self calls σ1))
  = fst (PathConstraint_getTakenAddress self Py_None σ1).
Proof.
  intros e σ self σ1 calls.
  apply (methods_keep_branches_and_thread true e σ σ1 self calls
           "getTakenAddress" PathConstraint_getTakenAddress Py_None).
  - reflexivity.
  - repeat constructor. exists "setComment"%string. unfold PathConstraint_callbacks. simpl.
    do 7 (apply elem_of_cons; right). apply elem_of_cons. left. reflexivity.
  - unfold getters, PathConstraint_callbacks.
    do 3 (apply elem_of_cons; right). apply elem_of_cons. left. reflexivity.
  - discriminate.
Defined.

(** X12. For a thread id in the range of a signed 32-bit integer, the Python
    integer that [getThreadId] returns is the id itself when it is not
    negative and the id plus [2^32] when it is; read back as a two's
    complement number it gives the thread id, so different thread ids give
    different results. *)
Theorem getThreadId_twos_complement
    (self : PathConstraint_Object) (noarg : PyObject) (σ : Heap) (e : PathConstraint) :
  σ !! pc self = Some e ->
  (- 2 ^ 31 <= threadId e < 2 ^ 31)%Z ->
  exists v,
    PathConstraint_getThreadId self noarg σ = (PyReturn (PyLong v), σ) /\
    v = (if (threadId e <? 0)%Z then threadId e + 2 ^ 32 else threadId e)%Z /\
    (if (v <? 2 ^ 31)%Z then v else v - 2 ^ 32)%Z = threadId e.
Proof.
  intros Hl Hrange. exists (uint32 (threadId e)).
  split; [apply (getThreadId_live self σ e Hl)|].
  unfold uint32. destruct (Z.ltb_spec (threadId e) 0) as [Hneg|Hpos].
  - assert ((threadId e) mod 2 ^ 32 = threadId e + 2 ^ 32)%Z as ->.
    { symmetry. apply (Z.mod_unique _ _ (-1)); lia. }
    split; [reflexivity|].
    destruct (Z.ltb_spec (threadId e + 2 ^ 32) (2 ^ 31)); lia.
  - rewrite Z.mod_small by lia. split; [reflexivity|].
    destruct (Z.ltb_spec (threadId e) (2 ^ 31)); lia.
Qed.

Lemma getThreadId_twos_complement_witness :
  let e := mkPathConstraint [mkBranch true 4096 4100 (Opaque 1)] (-2) EmptyString in
  let σ : Heap := {[ 1%positive := e ]} in
  exists v,
    PathConstraint_getThreadId (mkObject 1%positive) Py_None σ = (PyReturn (PyLong v), σ) /\
    (if (v <? 2 ^ 31)%Z then v else v - 2 ^ 32)%Z = (-2)%Z.
Proof.
  intros e σ.
  destruct (getThreadId_twos_complement (mkObject 1%positive) Py_None σ e)
    as (v & Hcall & _ & Hback).
  - apply lookup_singleton_eq.
  - simpl. lia.
  - exists v. split; [exact Hcall | exact Hback].
Defined.

(** * Properties of the ARCH namespace *)

(** ** Writing and reading a dictionary *)

Lemma dict_get_set_eq (items : list (string * PyObject)) (key : string) (v : PyObject) :
  dict_get (dict_set items key v) key = Some v.
Proof.
  induction items as [|[k w] items IH]; simpl.
  - rewrite String.eqb_refl. reflexivity.
  - destruct (String.eqb k key) eqn:Hk; simpl; rewrite Hk; [reflexivity | exact IH].
Qed.

Lemma dict_get_set_ne (items : list (string * PyObject)) (key key' : string) (v : PyObject) :
  key <> key' -> dict_get (dict_set items key v) key' = dict_get items key'.
Proof.
  intros Hne. induction items as [|[k w] items IH]; simpl.
  - apply String.eqb_neq in Hne. rewrite Hne. reflexivity.
  - destruct (String.eqb k key) eqn:Hk; simpl.
    + apply String.eqb_eq in Hk. subst k.
      apply String.eqb_neq in Hne. rewrite Hne. reflexivity.
    + rewrite IH. reflexivity.
Qed.

Lemma dict_set_same (items : list (string * PyObject)) (key : string) (v : PyObject) :
  dict_get items key = Some v -> dict_set items key v = items.
Proof.
  induction items as [|[k w] items IH]; simpl; [discriminate|].
  destruct (String.eqb k key) eqn:Hk.
  - intros Hv. injection Hv as ->. reflexivity.
  - intros Hv. rewrite (IH Hv). reflexivity.
Qed.

Lemma dict_set_absent (items : list (string * PyObject)) (key : string) (v : PyObject) :
  dict_get items key = None -> dict_set items key v = items ++ [(key, v)].
Proof.
  induction items as [|[k w] items IH]; simpl; [reflexivity|].
  destruct (String.eqb k key) eqn:Hk; [discriminate|].
  intros Hv. rewrite (IH Hv). reflexivity.
Qed.

Lemma dict_get_app_none (items tl : list (string * PyObject)) (key : string) :
  dict_get items key = None -> dict_get tl key = None -> dict_get (items ++ tl) key = None.
Proof.
  intros Hl Ht. induction items as [|[k v] items IH]; simpl in *; [exact Ht|].
  destruct (String.eqb k key); [discriminate | apply IH; exact Hl].
Qed.

Lemma ARCH_name_inj (a b : architecture_e) : ARCH_name a = ARCH_name b -> a = b.
Proof. destruct a, b; simpl; intros H; first [reflexivity | discriminate H]. Qed.

(** The dictionary after the six insertions, as a list of items. *)
Lemma initArchNamespace_items (value : architecture_e -> Z) (items : list (string * PyObject)) :
  initArchNamespace value (PyDict items)
  = PyDict
      (dict_set (dict_set (dict_set (dict_set (dict_set (dict_set items
         "AARCH64" (PyLong (uint32 (value ARCH_AARCH64))))
         "ARM32" (PyLong (uint32 (value ARCH_ARM32))))
         "RV32" (PyLong (uint32 (value ARCH_RV32))))
         "RV64" (PyLong (uint32 (value ARCH_RV64))))
         "X86" (PyLong (uint32 (value ARCH_X86))))
         "X86_64" (PyLong (uint32 (value ARCH_X86_64)))).
Proof. reflexivity. Qed.

Lemma initArchNamespace_get (value : architecture_e -> Z) (items : list (string * PyObject))
    (a : architecture_e) :
  PyDict_GetItemString (initArchNamespace value (PyDict items)) (ARCH_name a)
  = Some (PyLong (uint32 (value a))).
Proof.
  rewrite initArchNamespace_items. unfold PyDict_GetItemString.
  destruct a; simpl ARCH_name;
    repeat (rewrite dict_get_set_ne by discriminate); apply dict_get_set_eq.
Qed.

(** X7. After [initArchNamespace], whatever the dictionary held before, each
    of the six names is bound to the Python integer of its enumerator read
    as an unsigned 32-bit value: the enumerator's own value when it fits 32
    bits.  No name of the namespace hides another. *)
Theorem initArchNamespace_binds_every_name
    (value : architecture_e -> Z) (items : list (string * PyObject)) (a : architecture_e) :
  PyDict_GetItemString (initArchNamespace value (PyDict items)) (ARCH_name a)
  = Some (PyLong (uint32 (value a))) /\
  ((0 <= value a < 2 ^ 32)%Z ->
   PyDict_GetItemString (initArchNamespace value (PyDict items)) (ARCH_name a)
   = Some (PyLong (value a))) /\
  (forall b, ARCH_name a = ARCH_name b -> a = b).
Proof.
  split; [apply initArchNamespace_get|]. split.
  - intros Hrange. rewrite initArchNamespace_get. unfold uint32.
    rewrite Z.mod_small by exact Hrange. reflexivity.
  - apply ARCH_name_inj.
Qed.

Lemma initArchNamespace_binds_every_name_witness :
  let value := fun a => match a with
                        | ARCH_AARCH64 => 1 | ARCH_ARM32 => 2 | ARCH_RV32 => 3
                        | ARCH_RV64 => 4 | ARCH_X86 => 5 | ARCH_X86_64 => 6
                        end%Z in
  PyDict_GetItemString (initArchNamespace value (PyDict [("X86"%string, Py_None)])) "X86"
  = Some (PyLong 5).
Proof.
  intros value.
  apply (initArchNamespace_binds_every_name value [("X86"%string, Py_None)] ARCH_X86).
  simpl. lia.
Defined.

(** X8. [initArchNamespace] touches the six names only: any other key of the
    dictionary reads as before, and a key that was absent stays absent. *)
Theorem initArchNamespace_keeps_other_keys
    (value : architecture_e -> Z) (items : list (string * PyObject)) (key : string) :
  (forall a, key <> ARCH_name a) ->
  PyDict_GetItemString (initArchNamespace value (PyDict items)) key
  = PyDict_GetItemString (PyDict items) key.
Proof.
  intros Hkey. rewrite initArchNamespace_items. unfold PyDict_GetItemString.
  rewrite (dict_get_set_ne _ "X86_64") by (intros <-; apply (Hkey ARCH_X86_64); reflexivity).
  rewrite (dict_get_set_ne _ "X86") by (intros <-; apply (Hkey ARCH_X86); reflexivity).
  rewrite (dict_get_set_ne _ "RV64") by (intros <-; apply (Hkey ARCH_RV64); reflexivity).
  rewrite (dict_get_set_ne _ "RV32") by (intros <-; apply (Hkey ARCH_RV32); reflexivity).
  rewrite (dict_get_set_ne _ "ARM32") by (intros <-; apply (Hkey ARCH_ARM32); reflexivity).
  rewrite (dict_get_set_ne _ "AARCH64") by (intros <-; apply (Hkey ARCH_AARCH64); reflexivity).
  reflexivity.
Qed.

Lemma initArchNamespace_keeps_other_keys_witness :
  PyDict_GetItemString
    (initArchNamespace (fun _ => 0%Z) (PyDict [("__name__"%string, PyStr "ARCH")])) "__name__"
  = Some (PyStr "ARCH").
Proof.
  apply (initArchNamespace_keeps_other_keys (fun _ => 0%Z)
           [("__name__"%string, PyStr "ARCH")] "__name__").
  intros a. destruct a; discriminate.
Defined.

(** X9. Running [initArchNamespace] a second time on the dictionary it has
    filled changes nothing: no entry is added, moved or rewritten. *)
Theorem initArchNamespace_idempotent
    (value : architecture_e -> Z) (items : list (string * PyObject)) :
  initArchNamespace value (initArchNamespace value (PyDict items))
  = initArchNamespace value (PyDict items).
Proof.
  pose proof (initArchNamespace_get value items) as Hget.
  rewrite (initArchNamespace_items value items) in *.
  set (filled := dict_set _ "X86_64" _) in *.
  rewrite initArchNamespace_items. unfold PyDict_GetItemString in Hget.
  rewrite (dict_set_same filled "AARCH64" _ (Hget ARCH_AARCH64)).
  rewrite (dict_set_same filled "ARM32" _ (Hget ARCH_ARM32)).
  rewrite (dict_set_same filled "RV32" _ (Hget ARCH_RV32)).
  rewrite (dict_set_same filled "RV64" _ (Hget ARCH_RV64)).
  rewrite (dict_set_same filled "X86" _ (Hget ARCH_X86)).
  rewrite (dict_set_same filled "X86_64" _ (Hget ARCH_X86_64)).
  reflexivity.
Qed.

(** X10. On a dictionary that holds none of the six names,
    [initArchNamespace] keeps the entries there were, in place, and adds
    after them the six names in the order of the source: AARCH64, ARM32,
    RV32, RV64, X86, X86_64. *)
Theorem initArchNamespace_appends_in_order
    (value : architecture_e -> Z) (items : list (string * PyObject)) :
  (forall a, dict_get items (ARCH_name a) = None) ->
  initArchNamespace value (PyDict items)
  = PyDict (items ++
            [ ("AARCH64"%string, PyLong (uint32 (value ARCH_AARCH64)));
              ("ARM32"%string, PyLong (uint32 (value ARCH_ARM32)));
              ("RV32"%string, PyLong (uint32 (value ARCH_RV32)));
              ("RV64"%string, PyLong (uint32 (value ARCH_RV64)));
              ("X86"%string, PyLong (uint32 (value ARCH_X86)));
              ("X86_64"%string, PyLong (uint32 (value ARCH_X86_64))) ]).
Proof.
  intros Hfree. rewrite initArchNamespace_items.
  rewrite (dict_set_absent items "AARCH64") by apply (Hfree ARCH_AARCH64).
  rewrite (dict_set_absent _ "ARM32")
    by (apply dict_get_app_none; [apply (Hfree ARCH_ARM32) | reflexivity]).
  rewrite <- app_assoc. simpl.
  rewrite (dict_set_absent _ "RV32")
    by (apply dict_get_app_none; [apply (Hfree ARCH_RV32) | reflexivity]).
  rewrite <- app_assoc. simpl.
  rewrite (dict_set_absent _ "RV64")
    by (apply dict_get_app_none; [apply (Hfree ARCH_RV64) | reflexivity]).
  rewrite <- app_assoc. simpl.
  rewrite (dict_set_absent _ "X86")
    by (apply dict_get_app_none; [apply (Hfree ARCH_X86) | reflexivity]).
  rewrite <- app_assoc. simpl.
  rewrite (dict_set_absent _ "X86_64")
    by (apply dict_get_app_none; [apply (Hfree ARCH_X86_64) | reflexivity]).
  rewrite <- app_assoc. reflexivity.
Qed.

Lemma initArchNamespace_appends_in_order_witness :
  initArchNamespace (fun _ => 7%Z) (PyDict [("__name__"%string, PyStr "ARCH")])
  = PyDict [ ("__name__"%string, PyStr "ARCH");
             ("AARCH64"%string, PyLong 7); ("ARM32"%string, PyLong 7);
             ("RV32"%string, PyLong 7); ("RV64"%string, PyLong 7);
             ("X86"%string, PyLong 7); ("X86_64"%string, PyLong 7) ].
Proof.
  apply (initArchNamespace_appends_in_order (fun _ => 7%Z) [("__name__"%string, PyStr "ARCH")]).
  intros a. destruct a; reflexivity.
Defined.
